(** * Natural-language time parser of the quick commands

    A shallow embedding of [_parse_natural_time]
    (src/bot/handlers/quick_commands.py) together with the parts of
    Python's [str], [re] and [datetime] that the function calls.

    A character is a code point below 256 (type [ascii]); a text is a
    [string], handled internally as [list ascii].  Texts holding code
    points above 255 are outside this model.  The reference clock, which
    the source reads with [datetime.now()], is the parameter [now]. *)

From Stdlib Require Import ZArith List Ascii String Bool Lia.
From Stdlib Require Import Sorted Permutation.
Import ListNotations.

Local Open Scope Z_scope.

(** ** Exceptions *)

Inductive exn : Type :=
| OverflowError
| TypeError
| ValueError.

Inductive result (A : Type) : Type :=
| Return (a : A)
| Raise (e : exn).
Arguments Return {A} a.
Arguments Raise {A} e.

Definition bind {A B : Type} (r : result A) (f : A -> result B) : result B :=
  match r with
  | Return a => f a
  | Raise e => Raise e
  end.

Notation "x <- r ;; k" := (bind r (fun x => k))
  (at level 61, r at next level, right associativity).

(** ** Characters and [str] methods *)

Module Str.

Definition chars (s : string) : list ascii := list_ascii_of_string s.
Definition text (l : list ascii) : string := string_of_list_ascii l.

Definition code (c : ascii) : Z := Z.of_N (N_of_ascii c).

(** [str.isspace] on the code points below 256: TAB..CR, FS..US, SPACE,
    NEL and NBSP.  [re]'s [\s] is the same set. *)
Definition isspace (c : ascii) : bool :=
  let n := code c in
  ((9 <=? n) && (n <=? 13)) || ((28 <=? n) && (n <=? 32))
  || (n =? 133) || (n =? 160).

(** [re]'s [\d] on the code points below 256: the ten decimal digits. *)
Definition isdecimal (c : ascii) : bool :=
  let n := code c in (48 <=? n) && (n <=? 57).

(** [str.lower] of one code point below 256: A..Z and the Latin-1
    capitals (all of 0xC0..0xDE but the multiplication sign) move up by 32. *)
Definition lower_char (c : ascii) : ascii :=
  let n := code c in
  if ((65 <=? n) && (n <=? 90))
     || ((192 <=? n) && (n <=? 222) && negb (n =? 215))
  then ascii_of_N (Z.to_N (n + 32))
  else c.

Definition lower (s : list ascii) : list ascii := map lower_char s.

Fixpoint lstrip (p : ascii -> bool) (s : list ascii) : list ascii :=
  match s with
  | c :: s' => if p c then lstrip p s' else s
  | [] => []
  end.

Definition rstrip (p : ascii -> bool) (s : list ascii) : list ascii :=
  rev (lstrip p (rev s)).

(** [s.strip(chars)]: [p] tells which characters are stripped. *)
Definition strip_by (p : ascii -> bool) (s : list ascii) : list ascii :=
  rstrip p (lstrip p s).

(** [s.strip()] *)
Definition strip (s : list ascii) : list ascii := strip_by isspace s.

Definition ascii_eqb (a b : ascii) : bool := Ascii.eqb a b.

(** membership of a character in a literal set, as in [strip(' ,-:')] *)
Definition one_of (set : string) (c : ascii) : bool :=
  existsb (ascii_eqb c) (chars set).

Fixpoint startswith (p s : list ascii) : bool :=
  match p, s with
  | [], _ => true
  | a :: p', b :: s' => ascii_eqb a b && startswith p' s'
  | _ :: _, [] => false
  end.

(** [needle in hay] *)
Fixpoint contains (needle hay : list ascii) : bool :=
  startswith needle hay ||
  match hay with
  | [] => false
  | _ :: hay' => contains needle hay'
  end.

Definition str_in (needle : string) (hay : list ascii) : bool :=
  contains (chars needle) hay.

(** [int(s)] for a text of decimal digits, the only texts the parser
    converts (they are captures of [\d+], [\d{1,2}] and [\d{2}]).  CPython
    refuses a text of more than 4300 digits with a [ValueError]. *)
Definition digit_val (c : ascii) : Z := code c - 48.

Definition int_value (s : list ascii) : Z :=
  fold_left (fun acc c => 10 * acc + digit_val c) s 0.

Definition MAX_STR_DIGITS : nat := 4300.

Definition int (s : list ascii) : result Z :=
  if Nat.leb (List.length s) MAX_STR_DIGITS then Return (int_value s)
  else Raise ValueError.

(** [s.isdigit()]: on the code points below 256, the decimal digits and
    the superscripts one, two and three. *)
Definition isdigit_char (c : ascii) : bool :=
  isdecimal c || (code c =? 178) || (code c =? 179) || (code c =? 185).

Definition isdigit (s : list ascii) : bool :=
  match s with [] => false | _ => forallb isdigit_char s end.

Definition eqb (a b : list ascii) : bool :=
  String.eqb (text a) (text b).

End Str.

(** ** [datetime] and [timedelta] *)

Module DT.

(** A naive [datetime]: the proleptic Gregorian ordinal of its date
    ([date.toordinal()], day 1 is 0001-01-01) and its wall-clock fields. *)
Record datetime : Type := mk_datetime {
  ordinal : Z;
  hour : Z;
  minute : Z;
  second : Z;
  microsecond : Z
}.

(** [date.max.toordinal()], the ordinal of 9999-12-31 *)
Definition MAXORDINAL : Z := 3652059.

Definition valid (d : datetime) : Prop :=
  1 <= ordinal d <= MAXORDINAL /\
  0 <= hour d <= 23 /\ 0 <= minute d <= 59 /\
  0 <= second d <= 59 /\ 0 <= microsecond d <= 999999.

(** [d.date()] is the ordinal; [d.weekday()] has Monday = 0. *)
Definition date (d : datetime) : Z := ordinal d.
Definition weekday (d : datetime) : Z := (ordinal d + 6) mod 7.

(** [date(y, m, d).toordinal()], to write reference dates in examples. *)
Definition is_leap (y : Z) : bool :=
  (y mod 4 =? 0) && (negb (y mod 100 =? 0) || (y mod 400 =? 0)).

Definition days_before_year (y : Z) : Z :=
  let p := y - 1 in p * 365 + p / 4 - p / 100 + p / 400.

Definition days_in_month (y m : Z) : Z :=
  if m =? 2 then (if is_leap y then 29 else 28)
  else if (m =? 4) || (m =? 6) || (m =? 9) || (m =? 11) then 30 else 31.

Definition days_before_month (y m : Z) : Z :=
  fold_left (fun acc k => acc + days_in_month y (Z.of_nat k))
            (seq 1 (Z.to_nat (m - 1))) 0.

Definition ymd2ord (y m d : Z) : Z :=
  days_before_year y + days_before_month y m + d.

Definition at_ymd_hm (y m d hh mm : Z) : datetime :=
  mk_datetime (ymd2ord y m d) hh mm 0 0.

(** A normalised [timedelta]. *)
Record timedelta : Type := mk_timedelta {
  days : Z;
  seconds : Z;
  microseconds : Z
}.

Definition MAXDELTADAYS : Z := 999999999.

(** [timedelta(days=d, hours=h)]: the two keywords the parser uses.
    The constructor raises [OverflowError] when the normalised day count
    leaves [-999999999, 999999999]. *)
Definition new_timedelta (d h : Z) : result timedelta :=
  let s := h * 3600 in
  let d' := d + s / 86400 in
  if Z.abs d' <=? MAXDELTADAYS
  then Return (mk_timedelta d' (s mod 86400) 0)
  else Raise OverflowError.

(** [dt + delta]: the fields are summed and carried into the day count;
    a day outside [1, MAXORDINAL] raises [OverflowError]. *)
Definition add (dt : datetime) (delta : timedelta) : result datetime :=
  let us := microsecond dt + microseconds delta in
  let s := hour dt * 3600 + minute dt * 60 + second dt
           + seconds delta + us / 1000000 in
  let d := ordinal dt + days delta + s / 86400 in
  let s' := s mod 86400 in
  if (0 <? d) && (d <=? MAXORDINAL)
  then Return (mk_datetime d (s' / 3600) ((s' mod 3600) / 60)
                           ((s' mod 3600) mod 60) (us mod 1000000))
  else Raise OverflowError.

(** [datetime.min.time().replace(hour=h, minute=m)]: the checked fields
    of a [time], or the text of the [ValueError] that CPython raises. *)
Definition time_replace (h m : Z) : (Z * Z) + string :=
  if negb ((0 <=? h) && (h <=? 23)) then inr "hour must be in 0..23"%string
  else if negb ((0 <=? m) && (m <=? 59)) then inr "minute must be in 0..59"%string
  else inl (h, m).

(** [datetime.combine(date, time)] *)
Definition combine (d : Z) (t : Z * Z) : datetime :=
  mk_datetime d (fst t) (snd t) 0 0.

(** Microseconds since the start of day 0, to compare instants. *)
Definition instant (d : datetime) : Z :=
  (((ordinal d * 24 + hour d) * 60 + minute d) * 60 + second d) * 1000000
  + microsecond d.

End DT.

(** ** The part of [re] that the parser uses

    A backtracking matcher with Python's priorities: quantifiers are
    greedy, alternatives are tried from left to right, a search returns
    the leftmost match.  The quantifiers [*], [+] and [{m,n}] occur in the
    source only on the classes [\s] and [\d]; [?] occurs on any group. *)

Module Re.

Inductive cls : Type :=
| Space   (* \s *)
| Digit.  (* \d *)

Definition cls_mem (c : cls) : ascii -> bool :=
  match c with
  | Space => Str.isspace
  | Digit => Str.isdecimal
  end.

Inductive regex : Type :=
| Eps
| Chr (c : ascii)
| Many (c : cls) (lo : nat) (hi : option nat)  (* c{lo,hi}, no [hi]: unbounded *)
| Seq (r1 r2 : regex)
| Alt (r1 r2 : regex)
| Opt (r : regex)                              (* r? *)
| Group (i : nat) (r : regex).                 (* the i-th parenthesis *)

Definition plus (c : cls) : regex := Many c 1 None.
Definition star (c : cls) : regex := Many c 0 None.
Definition rep (c : cls) (lo hi : nat) : regex := Many c lo (Some hi).

Definition cat (rs : list regex) : regex := fold_right Seq Eps rs.

Definition lit (s : string) : regex := cat (map Chr (Str.chars s)).

Fixpoint alts (rs : list regex) : regex :=
  match rs with
  | [] => Eps
  | [r] => r
  | r :: rs' => Alt r (alts rs')
  end.

(** Captured groups, the most recent binding first. *)
Definition captures : Type := list (nat * list ascii).

Definition more (hi : option nat) : bool :=
  match hi with
  | Some O => false
  | _ => true
  end.

(** Greedy repetition of a character class: take a character when
    allowed and come back to stopping here when the rest fails. *)
Fixpoint many {A : Type} (p : ascii -> bool) (lo : nat) (hi : option nat)
    (s : list ascii) (k : list ascii -> option A) {struct s} : option A :=
  let stop := match lo with O => k s | S _ => None end in
  match s with
  | c :: s' =>
      if p c && more hi then
        match many p (Nat.pred lo) (option_map Nat.pred hi) s' k with
        | Some x => Some x
        | None => stop
        end
      else stop
  | [] => stop
  end.

(** [run r s g k]: match [r] at the head of [s] with captures [g] and
    hand the rest to the continuation [k]; [None] asks for backtracking. *)
Fixpoint run {A : Type} (r : regex) (s : list ascii) (g : captures)
    (k : list ascii -> captures -> option A) {struct r} : option A :=
  match r with
  | Eps => k s g
  | Chr c =>
      match s with
      | a :: s' => if Str.ascii_eqb a c then k s' g else None
      | [] => None
      end
  | Many c lo hi => many (cls_mem c) lo hi s (fun s' => k s' g)
  | Seq r1 r2 => run r1 s g (fun s' g' => run r2 s' g' k)
  | Alt r1 r2 =>
      match run r1 s g k with
      | Some x => Some x
      | None => run r2 s g k
      end
  | Opt r1 =>
      match run r1 s g k with
      | Some x => Some x
      | None => k s g
      end
  | Group i r1 =>
      run r1 s g
          (fun s' g' => k s' ((i, firstn (List.length s - List.length s') s) :: g'))
  end.

(** A match at the head of [s]: how many characters it takes, and its
    captures. *)
Definition match_here (r : regex) (s : list ascii) : option (nat * captures) :=
  run r s [] (fun s' g => Some ((List.length s - List.length s')%nat, g)).

(** A match object: where the match starts, its length, its captures. *)
Record Match : Type := mk_match {
  m_start : nat;
  m_length : nat;
  m_captures : captures
}.

Fixpoint search_from (r : regex) (pos : nat) (s : list ascii) : option Match :=
  match match_here r s with
  | Some (n, g) => Some (mk_match pos n g)
  | None =>
      match s with
      | [] => None
      | _ :: s' => search_from r (S pos) s'
      end
  end.

(** [re.search(r, s)] *)
Definition search (r : regex) (s : list ascii) : option Match :=
  search_from r 0 s.

Fixpoint lookup (i : nat) (g : captures) : option (list ascii) :=
  match g with
  | [] => None
  | (j, t) :: g' => if Nat.eqb i j then Some t else lookup i g'
  end.

(** [m.group(i)], [None] for a group that took no part in the match *)
Definition group (i : nat) (m : Match) : option (list ascii) :=
  lookup i (m_captures m).

Fixpoint ngroups (r : regex) : nat :=
  match r with
  | Eps | Chr _ | Many _ _ _ => 0
  | Seq r1 r2 | Alt r1 r2 => ngroups r1 + ngroups r2
  | Opt r1 => ngroups r1
  | Group _ r1 => S (ngroups r1)
  end.

(** [m.groups()] *)
Definition groups (r : regex) (m : Match) : list (option (list ascii)) :=
  map (fun i => group i m) (seq 1 (ngroups r)).

(** [re.sub(r, '', s)]: the text outside the successive leftmost matches.
    [skip] counts the characters of the current match still to drop.  An
    empty match replaces nothing; the patterns below match no empty text. *)
Fixpoint sub_from (r : regex) (skip : nat) (s : list ascii) : list ascii :=
  match s with
  | [] => []
  | c :: s' =>
      match skip with
      | S n => sub_from r n s'
      | O =>
          match match_here r s with
          | Some (S n, _) => sub_from r n s'
          | _ => c :: sub_from r O s'
          end
      end
  end.

Definition sub (r : regex) (s : list ascii) : list ascii := sub_from r 0 s.

(** The texts a pattern denotes, without priorities or captures. *)
Fixpoint lang (r : regex) (t : list ascii) : Prop :=
  match r with
  | Eps => t = []
  | Chr c => t = [c]
  | Many c lo hi =>
      Forall (fun a => cls_mem c a = true) t /\ (lo <= List.length t)%nat /\
      match hi with Some h => (List.length t <= h)%nat | None => True end
  | Seq r1 r2 => exists t1 t2, t = t1 ++ t2 /\ lang r1 t1 /\ lang r2 t2
  | Alt r1 r2 => lang r1 t \/ lang r2 t
  | Opt r1 => t = [] \/ lang r1 t
  | Group _ r1 => lang r1 t
  end.

(** The same with the captures a match leaves, the most recent first. *)
Fixpoint matches (r : regex) (t : list ascii) (d : captures) : Prop :=
  match r with
  | Eps => t = [] /\ d = []
  | Chr c => t = [c] /\ d = []
  | Many c lo hi => lang (Many c lo hi) t /\ d = []
  | Seq r1 r2 =>
      exists t1 t2 d1 d2,
        t = t1 ++ t2 /\ d = d2 ++ d1 /\ matches r1 t1 d1 /\ matches r2 t2 d2
  | Alt r1 r2 => matches r1 t d \/ matches r2 t d
  | Opt r1 => (t = [] /\ d = []) \/ matches r1 t d
  | Group i r1 => exists d1, d = (i, t) :: d1 /\ matches r1 t d1
  end.

(** [r] matches somewhere in [s]. *)
Definition occurs (r : regex) (s : list ascii) : Prop :=
  exists pre t post, s = pre ++ t ++ post /\ lang r t.

(** The pattern without its parentheses. *)
Fixpoint erase (r : regex) : regex :=
  match r with
  | Eps | Chr _ | Many _ _ _ => r
  | Seq r1 r2 => Seq (erase r1) (erase r2)
  | Alt r1 r2 => Alt (erase r1) (erase r2)
  | Opt r1 => Opt (erase r1)
  | Group _ r1 => erase r1
  end.

End Re.

(** ** The parser *)

Import Re.
Import DT.

Local Open Scope string_scope.
Local Open Scope Z_scope.
Local Open Scope list_scope.

Definition ampm : regex := Alt (lit "am") (lit "pm").

(** [time_patterns], tried in this order *)
Definition at_time_re : regex :=      (* at\s+(\d{1,2}):?(\d{2})?\s*(am|pm)? *)
  cat [lit "at"; plus Space; Group 1 (rep Digit 1 2); Opt (Chr ":");
       Opt (Group 2 (rep Digit 2 2)); star Space; Opt (Group 3 ampm)].

Definition colon_time_re : regex :=   (* (\d{1,2}):(\d{2})\s*(am|pm)? *)
  cat [Group 1 (rep Digit 1 2); Chr ":"; Group 2 (rep Digit 2 2);
       star Space; Opt (Group 3 ampm)].

Definition meridiem_time_re : regex :=  (* (\d{1,2})\s*(am|pm) *)
  cat [Group 1 (rep Digit 1 2); star Space; Group 2 ampm].

Definition time_patterns : list regex :=
  [at_time_re; colon_time_re; meridiem_time_re].

(** [day_map]; the source also builds [day_keywords] and never reads it. *)
Definition day_map : list (string * Z) :=
  [("monday", 0); ("tuesday", 1); ("wednesday", 2); ("thursday", 3);
   ("friday", 4); ("saturday", 5); ("sunday", 6)].

Definition in_hours_re : regex :=     (* in\s+(\d+)\s*hours? *)
  cat [lit "in"; plus Space; Group 1 (plus Digit); star Space;
       lit "hour"; Opt (Chr "s")].

(** the patterns removed from the title *)
Definition in_hours_strip_re : regex :=  (* in\s+\d+\s*hours? *)
  cat [lit "in"; plus Space; plus Digit; star Space; lit "hour"; Opt (Chr "s")].

Definition day_strip_re : regex :=
  (* (next\s+)?(today|tomorrow|monday|tuesday|wednesday|thursday|friday|saturday|sunday) *)
  cat [Opt (Group 1 (cat [lit "next"; plus Space]));
       Group 2 (alts [lit "today"; lit "tomorrow"; lit "monday"; lit "tuesday";
                      lit "wednesday"; lit "thursday"; lit "friday";
                      lit "saturday"; lit "sunday"])].

Definition at_time_strip_re : regex :=   (* at\s+\d{1,2}:?\d{0,2}\s*(am|pm)? *)
  cat [lit "at"; plus Space; rep Digit 1 2; Opt (Chr ":"); rep Digit 0 2;
       star Space; Opt (Group 1 ampm)].

Definition colon_time_strip_re : regex :=  (* \d{1,2}:\d{2}\s*(am|pm)? *)
  cat [rep Digit 1 2; Chr ":"; rep Digit 2 2; star Space; Opt (Group 1 ampm)].

Definition meridiem_time_strip_re : regex :=  (* \d{1,2}\s*(am|pm) *)
  cat [rep Digit 1 2; star Space; Group 1 ampm].

Definition no_time_message : string :=
  "Couldn't find a time. Try: 'tomorrow at 2pm' or 'monday 3:30pm'".

(** [x if x else None] *)
Definition or_none (t : list ascii) : option string :=
  match t with
  | [] => None
  | _ => Some (Str.text t)
  end.

Definition truthy (t : option (list ascii)) : bool :=
  match t with
  | Some (_ :: _) => true
  | _ => false
  end.

Definition is_str (s : string) (t : option (list ascii)) : bool :=
  match t with
  | Some u => Str.eqb u (Str.chars s)
  | None => false
  end.

Definition isdigit_of (t : option (list ascii)) : bool :=
  match t with
  | Some u => Str.isdigit u
  | None => false
  end.

(** [int(g)] of a group: [int(None)] is a [TypeError]. *)
Definition int_of (t : option (list ascii)) : result Z :=
  match t with
  | Some u => Str.int u
  | None => Raise TypeError
  end.

(** The body of the loop over [time_patterns] at a match: the hour, the
    minute and the period read from [groups]. *)
Definition read_groups (groups : list (option (list ascii)))
  : result (Z * Z * option (list ascii)) :=
  hour <- int_of (nth 0 groups None) ;;
  if Nat.eqb (List.length groups) 3 then
    (* patterns with hour, minute, period *)
    minute <- (if truthy (nth 1 groups None) && isdigit_of (nth 1 groups None)
               then int_of (nth 1 groups None) else Return 0) ;;
    let period :=
      if truthy (nth 2 groups None) then nth 2 groups None else None in
    Return (hour, minute, period)
  else if Nat.eqb (List.length groups) 2 then
    (* hour and period only *)
    if is_str "am" (nth 1 groups None) || is_str "pm" (nth 1 groups None)
    then Return (hour, 0, nth 1 groups None)
    else if truthy (nth 1 groups None) && isdigit_of (nth 1 groups None)
    then minute <- int_of (nth 1 groups None) ;; Return (hour, minute, None)
    else Return (hour, 0, None)
  else Return (hour, 0, None).

(** The loop over [time_patterns]: the first pattern found in the text
    decides; [None] when [hour] is still [None] after the loop. *)
Fixpoint find_time (patterns : list regex) (text : list ascii)
  : result (option (Z * Z * option (list ascii))) :=
  match patterns with
  | [] => Return None
  | pattern :: rest =>
      match search pattern text with
      | Some m => t <- read_groups (groups pattern m) ;; Return (Some t)
      | None => find_time rest text
      end
  end.

(** Convert to 24h *)
Definition to_24h (hour : Z) (period : option (list ascii)) : Z :=
  if is_str "pm" period && (hour <? 12) then hour + 12
  else if is_str "am" period && (hour =? 12) then 0
  else hour.

(** Find next occurrence of this day: the days to add for a name of
    weekday number [weekday] found in the text. *)
Definition days_ahead (weekday : Z) (text : list ascii) (now : datetime) : Z :=
  let days_ahead := weekday - DT.weekday now in
  if days_ahead <=? 0 then
    (* target day already happened this week or is today *)
    if Str.str_in "next" text then days_ahead + 7
    else if days_ahead <? 0 then days_ahead + 7
    else days_ahead
  else days_ahead.

(** The loop over [day_map]: the first name of the table found in the
    text decides; with no name [target_date] keeps [now.date()]. *)
Fixpoint find_day (table : list (string * Z)) (text : list ascii)
    (now : datetime) : result Z :=
  match table with
  | [] => Return (date now)
  | (day_name, weekday) :: rest =>
      if Str.str_in day_name text then
        delta <- new_timedelta (days_ahead weekday text now) 0 ;;
        target <- add now delta ;;
        Return (date target)
      else find_day rest text now
  end.

(** Find day reference *)
Definition target_date (text : list ascii) (now : datetime) : result Z :=
  if Str.str_in "tomorrow" text then
    delta <- new_timedelta 1 0 ;;
    target <- add now delta ;;
    Return (date target)
  else if Str.str_in "today" text then Return (date now)
  else find_day day_map text now.

(** Extract title (remove time/day references) *)
Definition extract_title (text : list ascii) : list ascii :=
  let title := text in
  let title := sub day_strip_re title in
  let title := sub at_time_strip_re title in
  let title := sub colon_time_strip_re title in
  let title := sub meridiem_time_strip_re title in
  Str.strip_by (Str.one_of " ,-:") title.

(** [text.lower().strip()] *)
Definition normalize (text : string) : list ascii :=
  Str.strip (Str.lower (Str.chars text)).

(** The two shapes of the returned pair. *)
Notation "'Resolved' when title" := (Return (Some when, title))
  (at level 10, when at level 9, title at level 9).
Notation "'Failed' reason" := (Return (None, Some reason))
  (at level 10, reason at level 9).

Definition _parse_natural_time (text : string) (now : datetime)
  : result (option datetime * option string) :=
  let text := normalize text in
  match search in_hours_re text with
  | Some in_hours_match =>
      hours <- int_of (group 1 in_hours_match) ;;
      delta <- new_timedelta 0 hours ;;
      target <- add now delta ;;
      let title := Str.strip (sub in_hours_strip_re text) in
      Resolved target (or_none title)
  | None =>
      found <- find_time time_patterns text ;;
      match found with
      | None => Failed no_time_message
      | Some (hour, minute, period) =>
          let hour := to_24h hour period in
          target_date <- target_date text now ;;
          match time_replace hour minute with
          | inr e => Failed ("Invalid time: " ++ e)%string
          | inl t =>
              let target := combine target_date t in
              Resolved target (or_none (extract_title text))
          end
      end
  end.

(** The decimal text of a number below 100, to state what the parser
    does with an hour token. *)
Definition digit_char (d : Z) : ascii := ascii_of_N (Z.to_N (48 + d)).

Definition hour_token (h : Z) : string :=
  Str.text (if h <? 10 then [digit_char h]
            else [digit_char (h / 10); digit_char (h mod 10)]).

(** The first day name of [day_map] that the text contains. *)
Definition first_day (text : list ascii) : option (string * Z) :=
  find (fun entry => Str.str_in (fst entry) text) day_map.

(** No character of [p] at either end of [t]. *)
Definition trimmed (p : ascii -> bool) (t : list ascii) : Prop :=
  (forall c t', t = c :: t' -> p c = false) /\
  (forall c t', t = t' ++ [c] -> p c = false).

(** What the time-of-day path gives once step 4 has found the date [d]:
    one of the two failure values, or a time of day on the date [d]. *)
Definition returns_on (d : Z) (r : result (option datetime * option string))
  : Prop :=
  r = Failed no_time_message \/
  (exists e, r = Failed ("Invalid time: " ++ e)%string) \/
  exists hh mm title,
    r = Resolved (mk_datetime d hh mm 0 0) title /\
    0 <= hh <= 23 /\ 0 <= mm <= 59.

(** What the loop body can read from a match of a time pattern. *)
Definition time_reading (x : Z * Z * option (list ascii)) : Prop :=
  let '(hh, mm, period) := x in
  0 <= hh <= 99 /\ 0 <= mm <= 99 /\
  (period = None \/ period = Some (Str.chars "am")
   \/ period = Some (Str.chars "pm")).

(** A text that [str.lower] leaves as it is. *)
Definition lowered (s : list ascii) : Prop :=
  Forall (fun c => Str.lower_char c = c) s.

(** Take apart a hypothesis [matches r t d] or [lang r t] on a pattern of
    this file. *)
Ltac break_matches M :=
  cbn in M;
  repeat match goal with
         | H : exists _, _ |- _ => destruct H
         | H : _ /\ _ |- _ => destruct H
         | H : _ \/ _ |- _ => destruct H
         end;
  subst.

(** ** Quick actions (src/bot/features/quick_actions.py)

    Texts are [string]s.  The icons of the actions lie outside the code
    points below 256 and are written in UTF-8; no function looks into
    them. *)

Module QA.

(** A [dict] with text keys: the entries in insertion order, each key
    once. *)
Definition dict (V : Type) : Type := list (string * V).

(** [d.get(key)] *)
Fixpoint get {V : Type} (d : dict V) (key : string) : option V :=
  match d with
  | [] => None
  | (k, v) :: d' => if String.eqb k key then Some v else get d' key
  end.

(** [d[key] = v] *)
Fixpoint set {V : Type} (d : dict V) (key : string) (v : V) : dict V :=
  match d with
  | [] => [(key, v)]
  | (k, x) :: d' =>
      if String.eqb k key then (k, v) :: d' else (k, x) :: set d' key v
  end.

(** [d.values()] *)
Definition values {V : Type} (d : dict V) : list V := map snd d.

(** [x in xs] for a list of texts *)
Definition mem (x : string) (xs : list string) : bool :=
  existsb (String.eqb x) xs.

(** [class QuickAction] *)
Record QuickAction : Type := mk_action {
  id : string;
  name : string;
  description : string;
  command : string;
  icon : string;
  category : string;
  context_required : list string;   (* required context keys *)
  priority : Z                      (* higher = more important *)
}.

(** A context: the truth value of each entry of the [Dict[str, Any]]. *)
Definition Context : Type := dict bool.

(** [QuickActionManager], whose state is the table of actions. *)
Record QuickActionManager : Type := mk_manager {
  actions : dict QuickAction
}.

Definition _create_default_actions : dict QuickAction :=
  [("test", mk_action "test" "Run Tests" "Run project tests" "test" "🧪"
              "testing" ["has_tests"] 10);
   ("install", mk_action "install" "Install Dependencies"
                 "Install project dependencies" "install" "📦" "setup"
                 ["has_package_manager"] 9);
   ("format", mk_action "format" "Format Code"
                "Format code with project formatter" "format" "🎨" "quality"
                ["has_formatter"] 7);
   ("lint", mk_action "lint" "Lint Code" "Check code quality" "lint" "🔍"
              "quality" ["has_linter"] 8);
   ("security", mk_action "security" "Security Scan"
                  "Run security vulnerability scan" "security" "🔒"
                  "security" ["has_dependencies"] 6);
   ("optimize", mk_action "optimize" "Optimize" "Optimize code performance"
                  "optimize" "⚡" "performance" ["has_code"] 5);
   ("document", mk_action "document" "Generate Docs"
                  "Generate documentation" "document" "📝" "documentation"
                  ["has_code"] 4);
   ("refactor", mk_action "refactor" "Refactor" "Suggest code improvements"
                  "refactor" "🔧" "quality" ["has_code"] 3)].

(** [QuickActionManager()] *)
Definition new_manager : QuickActionManager :=
  mk_manager _create_default_actions.

(** [context.get(key, False)], as a truth value *)
Definition flag (context : Context) (key : string) : bool :=
  match get context key with
  | Some b => b
  | None => false
  end.

(** Check all required context keys. *)
Fixpoint required_keys_hold (keys : list string) (context : Context) : bool :=
  match keys with
  | [] => true
  | key :: rest =>
      if negb (flag context key) then false
      else required_keys_hold rest context
  end.

Definition _is_action_available (action : QuickAction) (context : Context)
  : bool :=
  required_keys_hold (context_required action) context.

(** The context both analyses start from. *)
Definition default_context : Context :=
  [("has_code", true); ("has_tests", false); ("has_package_manager", false);
   ("has_formatter", false); ("has_linter", false);
   ("has_dependencies", false)].

(** Of a session the code reads [context] only; [SessionModel] itself is
    declared outside these files.  A message is its "content" entry, when
    it has one. *)
Definition Message : Type := option string.

Record SessionContext : Type := mk_session_context {
  recent_messages : option (list Message)
}.

Record Session : Type := mk_session {
  context : option SessionContext
}.

(** [any(word in content for word in words)] *)
Definition any_word_in (words : list string) (content : list ascii) : bool :=
  existsb (fun word => Str.str_in word content) words.

(** The body of the loop over the recent messages. *)
Definition scan_message (context : Context) (msg : Message) : Context :=
  let content :=
    Str.lower (Str.chars (match msg with Some c => c | None => "" end)) in
  (* test indicators *)
  let context :=
    if any_word_in ["test"; "pytest"; "unittest"] content
    then set context "has_tests" true else context in
  (* package manager indicators *)
  let context :=
    if any_word_in ["pip"; "poetry"; "npm"; "yarn"] content
    then set (set context "has_package_manager" true) "has_dependencies" true
    else context in
  (* formatter indicators *)
  let context :=
    if any_word_in ["black"; "prettier"; "format"] content
    then set context "has_formatter" true else context in
  (* linter indicators *)
  let context :=
    if any_word_in ["flake8"; "pylint"; "eslint"; "mypy"] content
    then set context "has_linter" true else context in
  context.

Definition _analyze_context (session : Session) : Context :=
  match context session with
  | Some c =>
      fold_left scan_message
                (match recent_messages c with Some l => l | None => [] end)
                default_context
  | None => default_context
  end.

(** What the file system says of a path: no directory, a directory that
    cannot be listed ([iterdir] raises), or the names of its regular files
    and of its sub-directories. *)
Inductive dir_state : Type :=
| NotADirectory
| Unreadable
| Listing (files dirs : list string).

(** [None] stands for the exception of an unreadable directory. *)
Definition _analyze_context_from_data (fs : string -> dir_state)
    (session_data : dict string) : option Context :=
  let context := default_context in
  match get session_data "working_directory" with
  | None | Some "" => Some context
  | Some working_dir =>
      match fs working_dir with
      | NotADirectory => Some context
      | Unreadable => None
      | Listing files dirs =>
          (* tests *)
          let context :=
            if mem "tests" dirs || mem "test" dirs
               || existsb (fun f => Str.str_in "test" (Str.chars f)) files
            then set context "has_tests" true else context in
          (* package managers *)
          let context :=
            if mem "pyproject.toml" files || mem "requirements.txt" files
            then set (set context "has_package_manager" true)
                     "has_dependencies" true
            else context in
          let context :=
            if mem "package.json" files
            then set (set context "has_package_manager" true)
                     "has_dependencies" true
            else context in
          (* formatters and linters *)
          let context :=
            if mem "pyproject.toml" files || mem ".flake8" files
               || mem ".pylintrc" files
            then set (set context "has_linter" true) "has_formatter" true
            else context in
          Some context
      end
  end.

(** [l.sort(key=lambda x: x.priority, reverse=True)]: the stable sort by
    decreasing priority, written as an insertion sort. *)
Fixpoint insert_by_priority (x : QuickAction) (l : list QuickAction)
  : list QuickAction :=
  match l with
  | [] => [x]
  | y :: l' =>
      if priority x <? priority y then y :: insert_by_priority x l'
      else x :: l
  end.

Definition sort_by_priority (l : list QuickAction) : list QuickAction :=
  fold_right insert_by_priority [] l.

(** [l[:limit]] *)
Definition slice_to {A : Type} (l : list A) (limit : Z) : list A :=
  if 0 <=? limit then firstn (Z.to_nat limit) l
  else firstn (List.length l - Z.to_nat (- limit)) l.

(** The suggestions for a context: filter, sort, cut. *)
Definition suggestions_for (self : QuickActionManager) (context : Context)
    (limit : Z) : list QuickAction :=
  let available_actions :=
    filter (fun action => _is_action_available action context)
           (values (actions self)) in
  slice_to (sort_by_priority available_actions) limit.

(** Analyze context - use session or session_data: the session when
    there is one, else a non-empty [session_data], else the fixed
    context. *)
Definition context_for (fs : string -> dir_state) (session : option Session)
    (session_data : option (dict string)) : option Context :=
  match session, session_data with
  | Some s, _ => Some (_analyze_context s)
  | None, Some (entry :: rest) => _analyze_context_from_data fs (entry :: rest)
  | None, _ => Some [("has_code", true)]
  end.

(** [get_suggestions(session, limit, session_data)]: an exception of the
    analysis is caught and gives the empty list. *)
Definition get_suggestions (self : QuickActionManager)
    (fs : string -> dir_state) (session : option Session) (limit : Z)
    (session_data : option (dict string)) : list QuickAction :=
  match context_for fs session session_data with
  | Some context => suggestions_for self context limit
  | None => []
  end.

(** The lower-cased content of a message and the messages of a session,
    as [_analyze_context] reads them. *)
Definition content_of (msg : Message) : list ascii :=
  Str.lower (Str.chars (match msg with Some c => c | None => "" end)).

Definition messages_of (session : Session) : list Message :=
  match context session with
  | Some c => match recent_messages c with Some l => l | None => [] end
  | None => []
  end.

(** Some message of the session holds one of the words. *)
Definition seen (words : list string) (session : Session) : bool :=
  existsb (fun msg => any_word_in words (content_of msg)) (messages_of session).

(** [a] ranks at least as high as [b]. *)
Definition outranks (a b : QuickAction) : Prop := priority b <= priority a.

(** The available actions of a manager, in the order of its table. *)
Definition available (self : QuickActionManager) (context : Context)
  : list QuickAction :=
  filter (fun action => _is_action_available action context)
         (values (actions self)).

(** [InlineKeyboardButton(text=..., callback_data=...)] *)
Record Button : Type := mk_button {
  text : string;
  callback_data : string
}.

Definition button (action : QuickAction) : Button :=
  mk_button (icon action ++ " " ++ name action)%string
            ("quick_action:" ++ id action)%string.

(** The loop of [create_inline_keyboard]: [i] is the index of the next
    action, [n] the number of actions. *)
Fixpoint keyboard_loop (columns n i : Z) (acts : list QuickAction)
    (keyboard : list (list Button)) (row : list Button)
  : list (list Button) :=
  match acts with
  | [] => keyboard
  | action :: rest =>
      let row := row ++ [button action] in
      (* add row when full or last item *)
      if (columns <=? Z.of_nat (List.length row)) || (i =? n - 1)
      then keyboard_loop columns n (i + 1) rest (keyboard ++ [row]) []
      else keyboard_loop columns n (i + 1) rest keyboard row
  end.

(** The rows of the [InlineKeyboardMarkup]. *)
Definition create_inline_keyboard (acts : list QuickAction) (columns : Z)
  : list (list Button) :=
  keyboard_loop columns (Z.of_nat (List.length acts)) 0 acts [] [].

(** [execute_action(action_id, session)]: the command of the action, or
    the [ValueError] for an unknown one.  Of the session only the id is
    read, for the log line. *)
Definition execute_action (self : QuickActionManager) (action_id : string)
  : result string :=
  match get (actions self) action_id with
  | None => Raise ValueError
  | Some action => Return (command action)
  end.

(** Rows of [c] buttons, but for a last row of 1 to [c]. *)
Inductive chunked {A : Type} (c : nat) : list (list A) -> Prop :=
| chunked_nil : chunked c []
| chunked_last (r : list A) :
    (1 <= List.length r <= c)%nat -> chunked c [r]
| chunked_cons (r : list A) (rows : list (list A)) :
    List.length r = c -> rows <> [] -> chunked c rows ->
    chunked c (r :: rows).

End QA.

(** ** The /schedule command (schedule_command in quick_commands.py)

    The handler up to the point where it has a time and a title: the
    usage reply, the --family flag, the call of the parser and the two
    error replies.  What follows in the source (capitalising the title,
    formatting the times, calling the Cal.com CLI and reporting its
    result) is not modelled; [Proceed] stands for it.  The texts of the
    replies are in UTF-8. *)

Module Sched.












End Sched.

(** * Properties *)

(** ** Lists and texts *)

Section StrFacts.

Variable p : ascii -> bool.

Lemma lstrip_suffix (s : list ascii) :
  exists pre, s = pre ++ Str.lstrip p s.
Proof.
  induction s as [|c s IH]; simpl.
  - exists []; reflexivity.
  - destruct (p c).
    + destruct IH as [pre IH]. exists (c :: pre). simpl. congruence.
    + exists []; reflexivity.
Qed.


Lemma rstrip_prefix (s : list ascii) :
  exists post, s = Str.rstrip p s ++ post.
Proof.
  unfold Str.rstrip.
  destruct (lstrip_suffix (rev s)) as [pre H].
  exists (rev pre).
  rewrite <- rev_app_distr, <- H, rev_involutive. reflexivity.
Qed.



Lemma strip_by_infix (s : list ascii) :
  exists pre post, s = pre ++ Str.strip_by p s ++ post.
Proof.
  unfold Str.strip_by.
  destruct (lstrip_suffix s) as [pre H1].
  destruct (rstrip_prefix (Str.lstrip p s)) as [post H2].
  exists pre, post. rewrite <- H2. exact H1.
Qed.


End StrFacts.

(** ** The matcher finds only texts of the pattern *)

Section ReSound.

Lemma firstn_consumed (t s' : list ascii) :
  firstn (List.length (t ++ s') - List.length s') (t ++ s') = t.
Proof.
  rewrite length_app.
  replace (List.length t + List.length s' - List.length s')%nat
    with (List.length t + 0)%nat by lia.
  rewrite firstn_app_2. simpl. apply app_nil_r.
Qed.

Lemma consumed_length (t s' : list ascii) :
  (List.length (t ++ s') - List.length s')%nat = List.length t.
Proof. rewrite length_app. lia. Qed.

Lemma many_sound {A : Type} (p : ascii -> bool) (s : list ascii) :
  forall lo hi (k : list ascii -> option A) x,
    many p lo hi s k = Some x ->
    exists t s',
      s = t ++ s' /\ Forall (fun a => p a = true) t /\
      (lo <= List.length t)%nat /\
      match hi with Some h => (List.length t <= h)%nat | None => True end /\
      k s' = Some x.
Proof.
  induction s as [|c s IH]; intros lo hi k x H.
  - simpl in H. destruct lo; [|discriminate].
    exists [], []. simpl. repeat split; auto. destruct hi; lia.
  - simpl in H.
    assert (Hstop : match lo with O => k (c :: s) | S _ => None end = Some x ->
                    exists t s', c :: s = t ++ s' /\
                      Forall (fun a => p a = true) t /\
                      (lo <= List.length t)%nat /\
                      match hi with Some h => (List.length t <= h)%nat | None => True end /\
                      k s' = Some x).
    { intros E. destruct lo; [|discriminate].
      exists [], (c :: s). simpl. repeat split; auto. destruct hi; lia. }
    destruct (p c && more hi) eqn:Hc; [|auto].
    apply andb_prop in Hc as [Hp Hm].
    destruct (many p (Nat.pred lo) (option_map Nat.pred hi) s k) as [y|] eqn:E;
      [|auto].
    injection H as ->.
    apply IH in E as (t & s' & -> & Ht & Hlo & Hhi & Hk).
    exists (c :: t), s'. simpl. repeat split; auto.
    + lia.
    + destruct hi as [[|h]|]; simpl in *; try discriminate; lia.
Qed.

Lemma run_sound {A : Type} (r : regex) :
  forall (s : list ascii) (g : captures)
         (k : list ascii -> captures -> option A) x,
    run r s g k = Some x ->
    exists t s' d, s = t ++ s' /\ matches r t d /\ k s' (d ++ g) = Some x.
Proof.
  induction r as [|c|c lo hi|r1 IH1 r2 IH2|r1 IH1 r2 IH2|r1 IH1|i r1 IH1];
    intros s g k x H; simpl in H.
  - exists [], s, []. simpl. auto.
  - destruct s as [|a s]; [discriminate|].
    destruct (Str.ascii_eqb a c) eqn:E; [|discriminate].
    apply Ascii.eqb_eq in E as ->.
    exists [c], s, []. simpl. auto.
  - apply many_sound in H as (t & s' & -> & Ht & Hlo & Hhi & Hk).
    exists t, s', []. simpl. repeat split; auto.
  - apply IH1 in H as (t1 & s1 & d1 & -> & M1 & H).
    apply IH2 in H as (t2 & s2 & d2 & -> & M2 & H).
    exists (t1 ++ t2), s2, (d2 ++ d1). rewrite <- !app_assoc.
    repeat split; auto. simpl. exists t1, t2, d1, d2. auto.
  - destruct (run r1 s g k) as [y|] eqn:E.
    + injection H as ->. apply IH1 in E as (t & s' & d & -> & M & Hk).
      exists t, s', d. simpl. auto.
    + apply IH2 in H as (t & s' & d & -> & M & Hk).
      exists t, s', d. simpl. auto.
  - destruct (run r1 s g k) as [y|] eqn:E.
    + injection H as ->. apply IH1 in E as (t & s' & d & -> & M & Hk).
      exists t, s', d. simpl. auto.
    + exists [], s, []. simpl. auto.
  - apply IH1 in H as (t & s' & d & -> & M & Hk).
    rewrite firstn_consumed in Hk.
    exists t, s', ((i, t) :: d). simpl. repeat split; eauto.
Qed.

Lemma match_here_sound (r : regex) (s : list ascii) n g :
  match_here r s = Some (n, g) ->
  exists t s', s = t ++ s' /\ matches r t g /\ n = List.length t.
Proof.
  unfold match_here. intros H.
  apply run_sound in H as (t & s' & d & -> & M & Hk).
  rewrite app_nil_r, consumed_length in Hk. injection Hk as <- <-.
  eauto.
Qed.

Lemma search_from_sound (r : regex) (s : list ascii) :
  forall pos m,
    search_from r pos s = Some m ->
    exists pre t post,
      s = pre ++ t ++ post /\ matches r t (m_captures m) /\
      m_start m = (pos + List.length pre)%nat /\ m_length m = List.length t.
Proof.
  induction s as [|c s IH]; intros pos m H; simpl in H.
  - destruct (match_here r []) as [[n g]|] eqn:E; [|discriminate].
    injection H as <-. apply match_here_sound in E as (t & s' & E & M & ->).
    exists [], t, s'. simpl. repeat split; auto.
  - destruct (match_here r (c :: s)) as [[n g]|] eqn:E.
    + injection H as <-. apply match_here_sound in E as (t & s' & E & M & ->).
      exists [], t, s'. simpl. repeat split; auto.
    + apply IH in H as (pre & t & post & -> & M & Hs & Hl).
      exists (c :: pre), t, post. simpl. repeat split; auto. lia.
Qed.

Lemma matches_lang (r : regex) :
  forall t d, matches r t d -> lang r t.
Proof.
  induction r as [|c|c lo hi|r1 IH1 r2 IH2|r1 IH1 r2 IH2|r1 IH1|i r1 IH1];
    intros t d M; simpl in *.
  - tauto.
  - tauto.
  - tauto.
  - destruct M as (t1 & t2 & d1 & d2 & -> & _ & M1 & M2).
    exists t1, t2. eauto.
  - destruct M as [M|M]; eauto.
  - destruct M as [[M _]|M]; eauto.
  - destruct M as (d1 & _ & M). eauto.
Qed.

Lemma search_sound (r : regex) (s : list ascii) m :
  search r s = Some m ->
  exists pre t post,
    s = pre ++ t ++ post /\ matches r t (m_captures m) /\
    m_length m = List.length t.
Proof.
  unfold search. intros H.
  apply search_from_sound in H as (pre & t & post & E & M & _ & L).
  exists pre, t, post. auto.
Qed.

Lemma search_occurs (r : regex) (s : list ascii) m :
  search r s = Some m -> occurs r s.
Proof.
  intros H. apply search_sound in H as (pre & t & post & E & M & _).
  exists pre, t, post. split; [exact E|]. eapply matches_lang; eauto.
Qed.

Lemma not_occurs_search (r : regex) (s : list ascii) :
  ~ occurs r s -> search r s = None.
Proof.
  intros H. destruct (search r s) eqn:E; [|reflexivity].
  exfalso. apply H. eapply search_occurs; eauto.
Qed.

End ReSound.

(** ** The matcher finds every text of the pattern *)

Section ReComplete.

Lemma many_complete {A : Type} (p : ascii -> bool) (t : list ascii) :
  forall lo hi s' (k : list ascii -> option A),
    Forall (fun a => p a = true) t ->
    (lo <= List.length t)%nat ->
    match hi with Some h => (List.length t <= h)%nat | None => True end ->
    k s' <> None ->
    many p lo hi (t ++ s') k <> None.
Proof.
  induction t as [|a t IH]; intros lo hi s' k Ht Hlo Hhi Hk.
  - simpl in Hlo. assert (lo = 0%nat) as -> by lia. simpl.
    destruct s' as [|c s']; simpl; [exact Hk|].
    destruct (p c && more hi); [|exact Hk].
    destruct (many p 0 (option_map Nat.pred hi) s' k); [discriminate|exact Hk].
  - inversion Ht as [|? ? Ha Ht']; subst. simpl in *.
    assert (Hm : more hi = true) by (destruct hi as [[|h]|]; simpl; auto; lia).
    rewrite Ha, Hm. simpl.
    assert (Hrec : many p (Nat.pred lo) (option_map Nat.pred hi) (t ++ s') k
                   <> None).
    { apply IH; auto; [lia|]. destruct hi as [h|]; simpl; auto. lia. }
    destruct (many p (Nat.pred lo) (option_map Nat.pred hi) (t ++ s') k);
      [discriminate|contradiction].
Qed.

Lemma run_complete {A : Type} (r : regex) :
  forall (t s' : list ascii) (g : captures)
         (k : list ascii -> captures -> option A),
    lang r t ->
    (forall g', k s' g' <> None) ->
    run r (t ++ s') g k <> None.
Proof.
  induction r as [|c|c lo hi|r1 IH1 r2 IH2|r1 IH1 r2 IH2|r1 IH1|i r1 IH1];
    intros t s' g k L Hk; simpl in L; simpl run.
  - subst t. apply Hk.
  - subst t. simpl. unfold Str.ascii_eqb. rewrite Ascii.eqb_refl. apply Hk.
  - destruct L as (Ht & Hlo & Hhi). apply many_complete; auto.
  - destruct L as (t1 & t2 & -> & L1 & L2). rewrite <- app_assoc.
    apply IH1; auto.
  - destruct L as [L|L].
    + specialize (IH1 t s' g k L Hk).
      destruct (run r1 (t ++ s') g k); [discriminate|contradiction].
    + destruct (run r1 (t ++ s') g k); [discriminate|]. apply IH2; auto.
  - destruct L as [->|L].
    + simpl. destruct (run r1 s' g k); [discriminate|apply Hk].
    + specialize (IH1 t s' g k L Hk).
      destruct (run r1 (t ++ s') g k); [discriminate|contradiction].
  - apply IH1; auto.
Qed.

Lemma match_here_complete (r : regex) (t s' : list ascii) :
  lang r t -> match_here r (t ++ s') <> None.
Proof.
  intros L. unfold match_here. apply run_complete; auto. discriminate.
Qed.

Lemma search_from_complete (r : regex) (pre : list ascii) :
  forall pos t post,
    lang r t -> search_from r pos (pre ++ t ++ post) <> None.
Proof.
  induction pre as [|c pre IH]; intros pos t post L.
  - simpl app. pose proof (match_here_complete r t post L) as H.
    destruct (t ++ post) as [|c s]; simpl;
      destruct (match_here r _) as [[n g]|]; try discriminate; contradiction.
  - simpl. destruct (match_here r _) as [[n g]|]; [discriminate|].
    apply IH. exact L.
Qed.

Lemma occurs_search (r : regex) (s : list ascii) :
  occurs r s -> exists m, search r s = Some m.
Proof.
  intros (pre & t & post & -> & L).
  pose proof (search_from_complete r pre 0 t post L) as H. unfold search.
  destruct (search_from r 0 _) as [m|]; [eauto|contradiction].
Qed.

Lemma search_none_iff (r : regex) (s : list ascii) :
  search r s = None <-> ~ occurs r s.
Proof.
  split.
  - intros H O. apply occurs_search in O as [m E]. congruence.
  - apply not_occurs_search.
Qed.

Lemma occurs_infix (r : regex) (pre s post : list ascii) :
  occurs r s -> occurs r (pre ++ s ++ post).
Proof.
  intros (a & t & b & -> & L).
  exists (pre ++ a), t, (b ++ post). split; [|exact L].
  rewrite <- !app_assoc. reflexivity.
Qed.

End ReComplete.

(** ** Date arithmetic *)

Section DateFacts.

Lemma weekday_range (d : datetime) : 0 <= weekday d <= 6.
Proof.
  unfold weekday. pose proof (Z.mod_pos_bound (ordinal d + 6) 7). lia.
Qed.

(** What [add] returns, when it returns: the instant moved by the delta,
    with wall-clock fields in range. *)
Lemma add_instant (now w : datetime) (delta : timedelta) :
  valid now ->
  0 <= seconds delta < 86400 -> 0 <= microseconds delta < 1000000 ->
  add now delta = Return w ->
  instant w = instant now
              + (days delta * 86400 + seconds delta) * 1000000
              + microseconds delta
  /\ valid w.
Proof.
  intros (Ho & Hh & Hm & Hs & Hu) Hds Hdu. unfold add.
  destruct now as [o h m s u], delta as [dd ds du]; simpl in *.
  set (us := u + du). set (S := h * 3600 + m * 60 + s + ds + us / 1000000).
  destruct ((0 <? o + dd + S / 86400) && (o + dd + S / 86400 <=? MAXORDINAL))
    eqn:R; [|discriminate].
  intros E; injection E as <-.
  apply andb_prop in R as [R1 R2].
  apply Z.ltb_lt in R1. apply Z.leb_le in R2.
  unfold instant, valid; simpl.
  pose proof (Z.div_mod us 1000000 ltac:(lia)).
  pose proof (Z.mod_pos_bound us 1000000 ltac:(lia)).
  pose proof (Z.div_mod S 86400 ltac:(lia)).
  pose proof (Z.mod_pos_bound S 86400 ltac:(lia)).
  set (S' := S mod 86400) in *.
  pose proof (Z.div_mod S' 3600 ltac:(lia)).
  pose proof (Z.mod_pos_bound S' 3600 ltac:(lia)).
  set (R := S' mod 3600) in *.
  pose proof (Z.div_mod R 60 ltac:(lia)).
  pose proof (Z.mod_pos_bound R 60 ltac:(lia)).
  assert (0 <= S' / 3600 <= 23).
  { split; [apply Z.div_pos; lia|].
    apply Z.lt_succ_r. apply Z.div_lt_upper_bound; lia. }
  assert (0 <= R / 60 <= 59).
  { split; [apply Z.div_pos; lia|].
    apply Z.lt_succ_r. apply Z.div_lt_upper_bound; lia. }
  subst S. lia.
Qed.

(** Adding whole days keeps the wall clock. *)
Lemma add_days (now : datetime) (k : Z) :
  valid now ->
  add now (mk_timedelta k 0 0) =
  if (0 <? ordinal now + k) && (ordinal now + k <=? MAXORDINAL)
  then Return (mk_datetime (ordinal now + k) (hour now) (minute now)
                           (second now) (microsecond now))
  else Raise OverflowError.
Proof.
  intros (Ho & Hh & Hm & Hs & Hu). unfold add.
  destruct now as [o h m s u]; simpl in *.
  rewrite !Z.add_0_r.
  rewrite (Z.div_small u 1000000) by lia.
  rewrite (Z.mod_small u 1000000) by lia.
  rewrite !Z.add_0_r.
  set (S := h * 3600 + m * 60 + s).
  assert (HS : 0 <= S < 86400) by (subst S; lia).
  rewrite (Z.div_small S 86400) by lia.
  rewrite (Z.mod_small S 86400) by lia.
  rewrite !Z.add_0_r.
  assert (E1 : S / 3600 = h).
  { symmetry. apply (Z.div_unique S 3600 h (m * 60 + s)); subst S; lia. }
  assert (E2 : S mod 3600 = m * 60 + s).
  { symmetry. apply (Z.mod_unique S 3600 h (m * 60 + s)); subst S; lia. }
  assert (E3 : (m * 60 + s) / 60 = m).
  { symmetry. apply (Z.div_unique _ 60 m s); lia. }
  assert (E4 : (m * 60 + s) mod 60 = s).
  { symmetry. apply (Z.mod_unique _ 60 m s); lia. }
  rewrite E1, E2, E3, E4. reflexivity.
Qed.

Lemma new_timedelta_days (k : Z) :
  Z.abs k <= MAXDELTADAYS ->
  new_timedelta k 0 = Return (mk_timedelta k 0 0).
Proof.
  intros H. unfold new_timedelta. simpl. rewrite Z.add_0_r.
  destruct (Z.abs k <=? MAXDELTADAYS) eqn:E; [reflexivity|].
  apply Z.leb_gt in E. lia.
Qed.

(** [now + timedelta(days=k)] for a small [k] *)
Lemma plus_days (now : datetime) (k : Z) :
  valid now -> 0 <= k <= 7 ->
  (delta <- new_timedelta k 0 ;; target <- add now delta ;;
   Return (date target)) =
  if ordinal now + k <=? MAXORDINAL then Return (date now + k)
  else Raise OverflowError.
Proof.
  intros V Hk. rewrite new_timedelta_days by (unfold MAXDELTADAYS; lia).
  simpl bind at 1. rewrite add_days by exact V.
  destruct V as (Ho & _).
  assert (E : (0 <? ordinal now + k) = true) by (apply Z.ltb_lt; lia).
  rewrite E. simpl andb.
  destruct (ordinal now + k <=? MAXORDINAL); reflexivity.
Qed.

End DateFacts.

(** ** The steps of the parser *)

Section ParserSteps.

Variable text : string.
Variable now : datetime.

Lemma parse_shortcut (m : Match) :
  search in_hours_re (normalize text) = Some m ->
  _parse_natural_time text now =
  (hours <- int_of (group 1 m) ;;
   delta <- new_timedelta 0 hours ;;
   target <- add now delta ;;
   Resolved target
     (or_none (Str.strip (sub in_hours_strip_re (normalize text))))).
Proof.
  intros H. unfold _parse_natural_time. cbv zeta. rewrite H. reflexivity.
Qed.

Lemma parse_main :
  search in_hours_re (normalize text) = None ->
  _parse_natural_time text now =
  (found <- find_time time_patterns (normalize text) ;;
   match found with
   | None => Failed no_time_message
   | Some (hour, minute, period) =>
       target_date <- target_date (normalize text) now ;;
       match time_replace (to_24h hour period) minute with
       | inr e => Failed ("Invalid time: " ++ e)%string
       | inl t =>
           Resolved (combine target_date t)
                    (or_none (extract_title (normalize text)))
       end
   end).
Proof.
  intros H. unfold _parse_natural_time. cbv zeta. rewrite H. reflexivity.
Qed.

(** A resolved result of the shortcut, taken apart. *)
Lemma shortcut_resolved (m : Match) w title :
  search in_hours_re (normalize text) = Some m ->
  _parse_natural_time text now = Resolved w title ->
  exists hours delta,
    int_of (group 1 m) = Return hours /\
    new_timedelta 0 hours = Return delta /\
    add now delta = Return w /\
    title = or_none (Str.strip (sub in_hours_strip_re (normalize text))).
Proof.
  intros H P. rewrite (parse_shortcut m H) in P.
  destruct (int_of (group 1 m)) as [hours|]; [|discriminate].
  cbn [bind] in P.
  destruct (new_timedelta 0 hours) as [delta|] eqn:D; [|discriminate].
  cbn [bind] in P.
  destruct (add now delta) as [target|] eqn:T; [|discriminate].
  cbn [bind] in P.
  injection P as <- <-. exists hours, delta. auto.
Qed.

(** A resolved result of the time-of-day path, taken apart. *)
Lemma main_resolved w title :
  search in_hours_re (normalize text) = None ->
  _parse_natural_time text now = Resolved w title ->
  exists hh mm period d tm,
    find_time time_patterns (normalize text) = Return (Some (hh, mm, period)) /\
    target_date (normalize text) now = Return d /\
    time_replace (to_24h hh period) mm = inl tm /\
    w = combine d tm /\
    title = or_none (extract_title (normalize text)).
Proof.
  intros H P. rewrite (parse_main H) in P.
  destruct (find_time time_patterns (normalize text)) as [[[[hh mm] pp]|]|];
    try discriminate; cbn [bind] in P.
  destruct (target_date (normalize text) now) as [d|]; [|discriminate].
  cbn [bind] in P.
  destruct (time_replace (to_24h hh pp) mm) as [tm|e] eqn:T; [|discriminate].
  injection P as <- <-. exists hh, mm, pp, d, tm. auto.
Qed.

Lemma time_replace_range h m tm :
  time_replace h m = inl tm ->
  tm = (h, m) /\ 0 <= h <= 23 /\ 0 <= m <= 59.
Proof.
  unfold time_replace.
  destruct ((0 <=? h) && (h <=? 23)) eqn:E1; simpl; [|discriminate].
  destruct ((0 <=? m) && (m <=? 59)) eqn:E2; simpl; [|discriminate].
  intros E; injection E as <-.
  apply andb_prop in E1 as [A B]. apply andb_prop in E2 as [C D].
  apply Z.leb_le in A, B, C, D. auto.
Qed.

End ParserSteps.

(** ** Date resolution *)

Section DateResolution.

Variable t : list ascii.
Variable now : datetime.

Lemma find_day_first (table : list (string * Z)) name wd :
  find (fun entry => Str.str_in (fst entry) t) table = Some (name, wd) ->
  find_day table t now =
  (delta <- new_timedelta (days_ahead wd t now) 0 ;;
   target <- add now delta ;;
   Return (date target)).
Proof.
  induction table as [|[n w] table IH]; simpl; [discriminate|].
  destruct (Str.str_in n t); auto.
  intros E; injection E as <- <-. reflexivity.
Qed.

Lemma find_day_none (table : list (string * Z)) :
  find (fun entry => Str.str_in (fst entry) t) table = None ->
  find_day table t now = Return (date now).
Proof.
  induction table as [|[n w] table IH]; simpl; [reflexivity|].
  destruct (Str.str_in n t); [discriminate|auto].
Qed.

Lemma first_day_weekday name wd :
  first_day t = Some (name, wd) -> 0 <= wd <= 6.
Proof.
  unfold first_day. intros H. apply find_some in H as [H _].
  simpl in H.
  repeat (destruct H as [H|H]; [injection H as <- <-; lia|]).
  contradiction.
Qed.

Lemma days_ahead_range wd :
  0 <= wd <= 6 -> 0 <= days_ahead wd t now <= 7.
Proof.
  intros H. pose proof (weekday_range now). unfold days_ahead.
  destruct (wd - weekday now <=? 0) eqn:E1;
    [apply Z.leb_le in E1|apply Z.leb_gt in E1; lia].
  destruct (Str.str_in "next" t); [lia|].
  destruct (wd - weekday now <? 0) eqn:E2;
    [apply Z.ltb_lt in E2|apply Z.ltb_ge in E2]; lia.
Qed.

(** The date found by step 4 is the reference date or one of the seven
    days after it. *)
Lemma target_date_range d :
  valid now ->
  target_date t now = Return d -> date now <= d <= date now + 7.
Proof.
  intros V. unfold target_date.
  destruct (Str.str_in "tomorrow" t).
  { rewrite (plus_days now 1 V) by lia.
    destruct (ordinal now + 1 <=? MAXORDINAL); [|discriminate].
    intros E; injection E as <-. lia. }
  destruct (Str.str_in "today" t).
  { intros E; injection E as <-. lia. }
  destruct (first_day t) as [[name wd]|] eqn:F.
  - pose proof (first_day_weekday _ _ F) as R.
    apply days_ahead_range in R.
    rewrite (find_day_first day_map name wd F).
    rewrite (plus_days now _ V R).
    destruct (_ <=? MAXORDINAL); [|discriminate].
    intros E; injection E as <-. lia.
  - rewrite (find_day_none day_map F).
    intros E; injection E as <-. lia.
Qed.

End DateResolution.

(** ** Digits and the capture of the shortcut pattern *)

Section Shortcut.

Lemma digit_val_range (c : ascii) :
  Str.isdecimal c = true -> 0 <= Str.digit_val c <= 9.
Proof.
  unfold Str.isdecimal, Str.digit_val. intros H.
  apply andb_prop in H as [A B]. apply Z.leb_le in A, B. lia.
Qed.

Lemma int_fold_nonneg (s : list ascii) :
  forall acc,
    0 <= acc -> Forall (fun a => Str.isdecimal a = true) s ->
    0 <= fold_left (fun acc c => 10 * acc + Str.digit_val c) s acc.
Proof.
  induction s as [|c s IH]; intros acc Hacc Hs; cbn [fold_left].
  - exact Hacc.
  - inversion Hs as [|? ? Hc Hs']; subst.
    apply digit_val_range in Hc. apply IH; auto. lia.
Qed.

Lemma int_value_nonneg (s : list ascii) :
  Forall (fun a => Str.isdecimal a = true) s -> 0 <= Str.int_value s.
Proof. intros H. apply int_fold_nonneg; auto. lia. Qed.

(** The capture of a match of [in_hours_re]: group 1 is a non-empty text
    of decimal digits. *)
Lemma in_hours_capture (t : list ascii) (m : Match) :
  search in_hours_re t = Some m ->
  exists digits,
    group 1 m = Some digits /\
    Forall (fun a => Str.isdecimal a = true) digits /\
    (1 <= List.length digits)%nat.
Proof.
  intros H. apply search_sound in H as (pre & u & post & _ & M & _).
  unfold group. break_matches M;
    match goal with
    | H : m_captures m = _ |- _ => rewrite H
    end; simpl; eauto.
Qed.

End Shortcut.

(** ** More on [sub] *)

Section SubFacts.

Lemma strip_patterns_nonempty (r : regex) (t : list ascii) :
  In r [in_hours_strip_re; day_strip_re; at_time_strip_re;
        colon_time_strip_re; meridiem_time_strip_re] ->
  lang r t -> t <> [].
Proof.
  intros I L E. apply (f_equal (@List.length ascii)) in E.
  simpl in I.
  repeat (destruct I as [<-|I]; [break_matches L; revert E;
              rewrite ?length_app; simpl; lia|]).
  contradiction.
Qed.

Lemma sub_from_skip (r : regex) (s : list ascii) :
  forall k, sub_from r k s = sub r (skipn k s).
Proof.
  induction s as [|c s IH]; intros [|k]; simpl; auto.
Qed.

(** Without a match the text is unchanged. *)
Lemma sub_none (r : regex) (s : list ascii) :
  search r s = None -> sub r s = s.
Proof.
  unfold search, sub.
  assert (G : forall pos, search_from r pos s = None -> sub_from r 0 s = s).
  { induction s as [|c s IH]; intros pos H; simpl in *; auto.
    destruct (match_here r (c :: s)) as [[n g]|]; [discriminate|].
    f_equal. eapply IH; eauto. }
  apply G.
Qed.

(** With a match, the text before the leftmost match is kept, the match
    is dropped, and the work goes on behind it. *)
Lemma sub_first (r : regex) (s : list ascii) (m : Match) :
  search r s = Some m -> (0 < m_length m)%nat ->
  sub r s = firstn (m_start m) s
            ++ sub r (skipn (m_start m + m_length m) s).
Proof.
  unfold search.
  assert (G : forall pos,
             search_from r pos s = Some m -> (0 < m_length m)%nat ->
             sub r s = firstn (m_start m - pos) s
                       ++ sub r (skipn (m_start m - pos + m_length m) s)).
  { induction s as [|c s IH]; intros pos H L; simpl in H.
    - destruct (match_here r []) as [[n g]|] eqn:E; [|discriminate].
      injection H as <-. simpl in L.
      apply match_here_sound in E as (t & s' & E & _ & ->).
      destruct t; [simpl in L; lia|discriminate].
    - destruct (match_here r (c :: s)) as [[n g]|] eqn:E.
      + injection H as <-. simpl in *. rewrite Nat.sub_diag. simpl.
        unfold sub at 1. simpl. rewrite E.
        destruct n as [|n]; [lia|]. simpl. apply sub_from_skip.
      + pose proof (search_from_sound r s (S pos) m H)
          as (pre & t & post & _ & _ & St & _).
        specialize (IH (S pos) H L).
        replace (m_start m - pos)%nat with (S (m_start m - S pos)) by lia.
        simpl. unfold sub at 1. simpl. rewrite E. f_equal. exact IH. }
  intros H L. specialize (G 0%nat H L). rewrite Nat.sub_0_r in G. exact G.
Qed.

(** Parentheses change the captures of a match, not its extent. *)
Lemma many_extent {A B : Type} (f : A -> nat) (f' : B -> nat)
    (p : ascii -> bool) (s : list ascii) :
  forall lo hi (k : list ascii -> option A) (k' : list ascii -> option B),
    (forall s', option_map f (k s') = option_map f' (k' s')) ->
    option_map f (many p lo hi s k) = option_map f' (many p lo hi s k').
Proof.
  induction s as [|c s IH]; intros lo hi k k' H; simpl.
  - destruct lo; auto.
  - assert (Hstop : option_map f (match lo with O => k (c :: s) | S _ => None end)
                    = option_map f' (match lo with O => k' (c :: s) | S _ => None end))
      by (destruct lo; auto).
    destruct (p c && more hi); auto.
    specialize (IH (Nat.pred lo) (option_map Nat.pred hi) k k' H).
    destruct (many p _ _ s k), (many p _ _ s k'); simpl in *;
      try discriminate; auto.
Qed.

Lemma run_extent {A B : Type} (f : A -> nat) (f' : B -> nat) (r : regex) :
  forall (s : list ascii) (g g' : captures)
         (k : list ascii -> captures -> option A)
         (k' : list ascii -> captures -> option B),
    (forall s' g1 g2, option_map f (k s' g1) = option_map f' (k' s' g2)) ->
    option_map f (run r s g k) = option_map f' (run (erase r) s g' k').
Proof.
  induction r as [|c|c lo hi|r1 IH1 r2 IH2|r1 IH1 r2 IH2|r1 IH1|i r1 IH1];
    intros s g g' k k' H; simpl.
  - apply H.
  - destruct s as [|a s]; auto. destruct (Str.ascii_eqb a c); auto.
  - apply many_extent. intros s'. apply H.
  - apply IH1. intros s' g1 g2. apply IH2. exact H.
  - specialize (IH1 s g g' k k' H). specialize (IH2 s g g' k k' H).
    destruct (run r1 s g k), (run (erase r1) s g' k'); simpl in *;
      try discriminate; auto.
  - specialize (IH1 s g g' k k' H). specialize (H s g g').
    destruct (run r1 s g k), (run (erase r1) s g' k'); simpl in *;
      try discriminate; auto.
  - apply IH1. intros s' g1 g2. apply H.
Qed.

Lemma match_here_erase (r : regex) (s : list ascii) :
  option_map fst (match_here (erase r) s) = option_map fst (match_here r s).
Proof.
  unfold match_here. symmetry. apply run_extent. reflexivity.
Qed.

Lemma sub_erase (r : regex) (s : list ascii) :
  forall k, sub_from (erase r) k s = sub_from r k s.
Proof.
  induction s as [|c s IH]; intros [|k]; simpl; auto.
  pose proof (match_here_erase r (c :: s)) as E.
  destruct (match_here (erase r) (c :: s)) as [[n g]|],
           (match_here r (c :: s)) as [[n' g']|]; simpl in E;
    try discriminate; [injection E as ->; destruct n'|]; rewrite IH; auto.
Qed.

(** The phrase that gives N is the first text that [sub] removes. *)
Lemma in_hours_first_removed (t : list ascii) (m : Match) :
  search in_hours_re t = Some m ->
  (0 < m_length m)%nat /\
  sub in_hours_strip_re t =
  firstn (m_start m) t
  ++ sub in_hours_strip_re (skipn (m_start m + m_length m) t).
Proof.
  intros S.
  assert (L : (0 < m_length m)%nat).
  { pose proof (search_sound _ _ _ S) as (pre & u & post & _ & M & ->).
    apply matches_lang in M.
    break_matches M; rewrite ?length_app; simpl; lia. }
  split; [exact L|].
  change in_hours_strip_re with (erase in_hours_re).
  unfold sub. rewrite !sub_erase. apply sub_first; assumption.
Qed.

End SubFacts.

(** ** Where exceptions can come from *)

Section NoRaise.

Lemma int_short (x : list ascii) :
  (List.length x <= 2)%nat -> Str.int x = Return (Str.int_value x).
Proof.
  intros H. unfold Str.int.
  assert (E : Nat.leb (List.length x) Str.MAX_STR_DIGITS = true).
  { apply Nat.leb_le. unfold Str.MAX_STR_DIGITS. lia. }
  rewrite E. reflexivity.
Qed.

Lemma int_value_short (x : list ascii) :
  Forall (fun a => Str.isdecimal a = true) x -> (List.length x <= 2)%nat ->
  0 <= Str.int_value x <= 99.
Proof.
  intros D L. destruct x as [|a [|b [|c x]]]; simpl in L; try lia.
  - vm_compute. split; discriminate.
  - inversion D as [|? ? Da _]; subst. apply digit_val_range in Da.
    unfold Str.int_value. cbn [fold_left]. lia.
  - inversion D as [|? ? Da D']; subst. inversion D' as [|? ? Db _]; subst.
    apply digit_val_range in Da, Db.
    unfold Str.int_value. cbn [fold_left]. lia.
Qed.

Ltac read_groups_returns :=
  unfold read_groups;
  cbn [nth List.length Nat.eqb int_of isdigit_of];
  rewrite ?int_short by lia; cbn [bind];
  repeat match goal with
         | |- context [truthy (Some ?x)] =>
             is_var x; destruct (truthy (Some x))
         end;
  cbn [truthy andb];
  repeat match goal with
         | |- context [Str.isdigit ?x] => destruct (Str.isdigit x)
         | |- context [is_str ?a ?b] =>
             let v := eval vm_compute in (is_str a b) in
             change (is_str a b) with v
         end;
  cbn [orb];
  rewrite ?int_short by lia; cbn [bind];
  eexists; (split; [reflexivity|]);
  unfold time_reading;
  repeat match goal with
         | H : Forall _ ?x |- _ =>
             match goal with
             | L : (List.length x <= 2)%nat |- _ =>
                 pose proof (int_value_short x H L); clear H
             end
         end;
  repeat split; auto; lia.

Lemma time_pattern_groups (r : regex) (t : list ascii) (m : Match) :
  In r time_patterns ->
  search r t = Some m ->
  exists x, read_groups (groups r m) = Return x /\ time_reading x.
Proof.
  intros I H. apply search_sound in H as (pre & u & post & _ & M & _).
  unfold groups, group. simpl in I.
  destruct I as [<-|[<-|[<-|[]]]];
    cbn [ngroups at_time_re colon_time_re meridiem_time_re cat fold_right
         lit map Str.chars list_ascii_of_string rep plus star ampm Nat.add seq];
    break_matches M;
    match goal with
    | H : m_captures m = _ |- _ => rewrite H
    end; cbn [lookup app Nat.eqb]; read_groups_returns.
Qed.

(** The loop over the time patterns raises nothing. *)
Lemma find_time_returns (t : list ascii) :
  find_time time_patterns t = Return None \/
  exists x, find_time time_patterns t = Return (Some x) /\ time_reading x.
Proof.
  assert (G : forall ps, incl ps time_patterns ->
            find_time ps t = Return None \/
            exists x, find_time ps t = Return (Some x) /\ time_reading x).
  { induction ps as [|p ps IH]; intros I; simpl; auto.
    destruct (search p t) as [m|] eqn:S.
    - right.
      destruct (time_pattern_groups p t m (I p (or_introl eq_refl)) S)
        as (x & -> & R).
      exists x. auto.
    - apply IH. intros q Hq. apply I. right. exact Hq. }
  apply G. apply incl_refl.
Qed.

Lemma target_date_returns (t : list ascii) (now : datetime) :
  valid now -> ordinal now + 7 <= MAXORDINAL ->
  exists d, target_date t now = Return d.
Proof.
  intros V M. unfold target_date.
  assert (P : forall k, 0 <= k <= 7 ->
            exists d, (delta <- new_timedelta k 0 ;; target <- add now delta ;;
                       Return (date target)) = Return d).
  { intros k K. rewrite (plus_days now k V K).
    assert (E : (ordinal now + k <=? MAXORDINAL) = true)
      by (apply Z.leb_le; lia).
    rewrite E. eauto. }
  destruct (Str.str_in "tomorrow" t); [apply P; lia|].
  destruct (Str.str_in "today" t); [eauto|].
  destruct (first_day t) as [[name wd]|] eqn:F.
  - rewrite (find_day_first t now day_map name wd F). apply P.
    apply days_ahead_range. eapply first_day_weekday; eauto.
  - rewrite (find_day_none t now day_map F). eauto.
Qed.

(** The time-of-day path with the date of step 4 at hand. *)
Lemma main_path_on (text : string) (now : datetime) (d : Z) :
  search in_hours_re (normalize text) = None ->
  target_date (normalize text) now = Return d ->
  returns_on d (_parse_natural_time text now).
Proof.
  intros S D. rewrite (parse_main text now S). unfold returns_on.
  destruct (find_time_returns (normalize text)) as [->|([[hh mm] pp] & -> & _)];
    cbn [bind]; [auto|].
  rewrite D. cbn [bind].
  destruct (time_replace (to_24h hh pp) mm) as [tm|e] eqn:T.
  - apply time_replace_range in T as (-> & Hh & Hm).
    right; right. exists (to_24h hh pp), mm. eexists.
    split; [reflexivity|auto].
  - right; left. eauto.
Qed.

(** Outside the shortcut the parser always returns, a time or a failure
    value, for every reference time up to a week before the end of the
    calendar: no hour or minute digits make it raise. *)
Lemma main_path_returns (text : string) (now : datetime) :
  valid now -> ordinal now + 7 <= MAXORDINAL ->
  search in_hours_re (normalize text) = None ->
  exists r, _parse_natural_time text now = Return r.
Proof.
  intros V M S.
  destruct (target_date_returns (normalize text) now V M) as (d & D).
  destruct (main_path_on text now d S D)
    as [->|[(e & ->)|(hh & mm & title & -> & _)]]; eauto.
Qed.

End NoRaise.

(** ** Weekday names (claims C1 and C2) *)

Section Weekdays.

Variable text : string.
Variable now : datetime.

Lemma days_ahead_same_day :
  Str.str_in "next" (normalize text) = false ->
  days_ahead (weekday now) (normalize text) now = 0.
Proof.
  intros N. unfold days_ahead. rewrite N, Z.sub_diag. reflexivity.
Qed.

Lemma days_ahead_next wd :
  0 <= wd <= 6 -> Str.str_in "next" (normalize text) = true ->
  days_ahead wd (normalize text) now = (wd - weekday now - 1) mod 7 + 1.
Proof.
  intros R N. pose proof (weekday_range now) as W.
  unfold days_ahead. rewrite N.
  destruct (wd - weekday now <=? 0) eqn:E;
    [apply Z.leb_le in E|apply Z.leb_gt in E].
  - rewrite <- (Z.mod_unique (wd - weekday now - 1) 7 (-1)
                  (wd - weekday now + 6)); lia.
  - rewrite (Z.mod_small (wd - weekday now - 1) 7); lia.
Qed.

(** C1, as amended: a weekday name that is the reference weekday, in a
    text without 'tomorrow', 'today' and 'next', resolves to the reference
    date itself: [days_ahead] is 0, and a week is added to 0 only under
    'next'.  Step 4 returns the reference date, and the time-of-day path
    returns a time on that date, or a failure value for want of a valid
    time. *)
Theorem C1_same_weekday_stays_today (name : string) :
  valid now ->
  Str.str_in "tomorrow" (normalize text) = false ->
  Str.str_in "today" (normalize text) = false ->
  Str.str_in "next" (normalize text) = false ->
  first_day (normalize text) = Some (name, weekday now) ->
  target_date (normalize text) now = Return (date now) /\
  (search in_hours_re (normalize text) = None ->
   returns_on (date now) (_parse_natural_time text now)).
Proof.
  intros V T1 T2 N F.
  assert (TD : target_date (normalize text) now = Return (date now)).
  { unfold target_date. rewrite T1, T2.
    rewrite (find_day_first (normalize text) now day_map name
               (weekday now) F).
    rewrite (days_ahead_same_day N).
    rewrite (plus_days now 0 V) by lia.
    destruct V as ((_ & Ho) & _).
    rewrite Z.add_0_r. apply Z.leb_le in Ho. rewrite Ho.
    rewrite Z.add_0_r. reflexivity. }
  split; [exact TD|].
  intros S. apply main_path_on; assumption.
Qed.

(** C2, as amended: with 'next' and a weekday name, and neither
    'tomorrow' nor 'today', the date is the first day of that name
    strictly after the reference date: 1 to 7 days ahead, 7 only when the
    name is the reference weekday.  'next' adds no week to a positive
    offset. *)
Theorem C2_next_is_first_later_occurrence (name : string) (wd : Z) :
  valid now ->
  ordinal now + 7 <= MAXORDINAL ->
  Str.str_in "tomorrow" (normalize text) = false ->
  Str.str_in "today" (normalize text) = false ->
  Str.str_in "next" (normalize text) = true ->
  first_day (normalize text) = Some (name, wd) ->
  let offset := (wd - weekday now - 1) mod 7 + 1 in
  1 <= offset <= 7 /\
  (offset = 7 <-> wd = weekday now) /\
  weekday (mk_datetime (date now + offset) 0 0 0 0) = wd /\
  target_date (normalize text) now = Return (date now + offset) /\
  (search in_hours_re (normalize text) = None ->
   returns_on (date now + offset) (_parse_natural_time text now)).
Proof.
  intros V M T1 T2 N F offset.
  pose proof (first_day_weekday (normalize text) name wd F) as R.
  pose proof (weekday_range now) as W.
  pose proof (days_ahead_next wd R N) as DA. fold offset in DA.
  pose proof (days_ahead_range (normalize text) now wd R) as DR. rewrite DA in DR.
  assert (O : 1 <= offset <= 7).
  { subst offset. pose proof (Z.mod_pos_bound (wd - weekday now - 1) 7). lia. }
  assert (TD : target_date (normalize text) now = Return (date now + offset)).
  { unfold target_date. rewrite T1, T2.
    rewrite (find_day_first (normalize text) now day_map name wd F), DA.
    rewrite (plus_days now offset V) by lia.
    assert (E : (ordinal now + offset <=? MAXORDINAL) = true)
      by (apply Z.leb_le; lia).
    rewrite E. reflexivity. }
  repeat split; auto; try lia.
  - intros E. rewrite <- DA in E. unfold days_ahead in E. rewrite N in E.
    destruct (wd - weekday now <=? 0) eqn:C;
      [apply Z.leb_le in C|apply Z.leb_gt in C]; lia.
  - intros ->. subst offset. rewrite Z.sub_diag. reflexivity.
  - assert (C : offset = wd - weekday now + 7 \/ offset = wd - weekday now).
    { rewrite <- DA. unfold days_ahead. rewrite N.
      destruct (wd - weekday now <=? 0); auto. }
    unfold weekday, date in *. simpl.
    pose proof (Z.div_mod (ordinal now + 6) 7 ltac:(lia)) as Q.
    symmetry. destruct C as [C|C]; rewrite C.
    + apply (Z.mod_unique _ 7 ((ordinal now + 6) / 7 + 1) wd); lia.
    + apply (Z.mod_unique _ 7 ((ordinal now + 6) / 7) wd); lia.
  - intros S. apply main_path_on; assumption.
Qed.

End Weekdays.

Lemma C1_same_weekday_stays_today_witness :
  target_date (normalize "friday 10am doctor") (at_ymd_hm 2024 3 15 8 0)
  = Return (date (at_ymd_hm 2024 3 15 8 0)) /\
  (search in_hours_re (normalize "friday 10am doctor") = None ->
   returns_on (date (at_ymd_hm 2024 3 15 8 0))
     (_parse_natural_time "friday 10am doctor" (at_ymd_hm 2024 3 15 8 0))).
Proof.
  apply (C1_same_weekday_stays_today "friday 10am doctor"
           (at_ymd_hm 2024 3 15 8 0) "friday").
  - vm_compute. repeat split; discriminate.
  - vm_compute. reflexivity.
  - vm_compute. reflexivity.
  - vm_compute. reflexivity.
  - vm_compute. reflexivity.
Defined.

(** C1, as stated, fails: "friday 10am doctor" read on Friday 2024-03-15
    at 08:00 resolves to 10:00 of that same Friday, not of the Friday a
    week later. *)
Lemma C1_counterexample :
  ~ (forall (text : string) (now w : datetime) (title : option string)
            (name : string),
       valid now ->
       Str.str_in "tomorrow" (normalize text) = false ->
       Str.str_in "today" (normalize text) = false ->
       Str.str_in "next" (normalize text) = false ->
       first_day (normalize text) = Some (name, weekday now) ->
       _parse_natural_time text now = Resolved w title ->
       date w = date now + 7).
Proof.
  intros H.
  specialize (H "friday 10am doctor" (at_ymd_hm 2024 3 15 8 0)
                (at_ymd_hm 2024 3 15 10 0) (Some "doctor") "friday").
  assert (V : valid (at_ymd_hm 2024 3 15 8 0))
    by (vm_compute; repeat split; discriminate).
  specialize (H V ltac:(vm_compute; reflexivity) ltac:(vm_compute; reflexivity)
                ltac:(vm_compute; reflexivity) ltac:(vm_compute; reflexivity)
                ltac:(vm_compute; reflexivity)).
  vm_compute in H. discriminate.
Qed.

Lemma C2_next_is_first_later_occurrence_witness :
  let now := at_ymd_hm 2024 3 17 9 0 in
  let offset := (0 - weekday now - 1) mod 7 + 1 in
  1 <= offset <= 7 /\
  (offset = 7 <-> 0 = weekday now) /\
  weekday (mk_datetime (date now + offset) 0 0 0 0) = 0 /\
  target_date (normalize "next monday 3pm") now = Return (date now + offset) /\
  (search in_hours_re (normalize "next monday 3pm") = None ->
   returns_on (date now + offset)
     (_parse_natural_time "next monday 3pm" now)).
Proof.
  apply (C2_next_is_first_later_occurrence "next monday 3pm"
           (at_ymd_hm 2024 3 17 9 0) "monday" 0).
  - vm_compute. repeat split; discriminate.
  - vm_compute. discriminate.
  - vm_compute. reflexivity.
  - vm_compute. reflexivity.
  - vm_compute. reflexivity.
  - vm_compute. reflexivity.
Defined.

(** C2, as stated, fails: "next monday 3pm" read on Sunday 2024-03-17
    resolves to Monday 2024-03-18, one day later. *)
Lemma C2_counterexample :
  ~ (forall (text : string) (now w : datetime) (title : option string)
            (name : string) (wd : Z),
       valid now ->
       Str.str_in "tomorrow" (normalize text) = false ->
       Str.str_in "today" (normalize text) = false ->
       Str.str_in "next" (normalize text) = true ->
       first_day (normalize text) = Some (name, wd) ->
       _parse_natural_time text now = Resolved w title ->
       date now + 7 <= date w).
Proof.
  intros H.
  specialize (H "next monday 3pm" (at_ymd_hm 2024 3 17 9 0)
                (at_ymd_hm 2024 3 18 15 0) None "monday" 0).
  assert (V : valid (at_ymd_hm 2024 3 17 9 0))
    by (vm_compute; repeat split; discriminate).
  specialize (H V ltac:(vm_compute; reflexivity) ltac:(vm_compute; reflexivity)
                ltac:(vm_compute; reflexivity) ltac:(vm_compute; reflexivity)
                ltac:(vm_compute; reflexivity)).
  vm_compute in H. apply H. reflexivity.
Qed.

(** ** The 'in N hours' shortcut (claims C3 and C4) *)

(** The timedelta of whole hours. *)
Lemma new_timedelta_hours (n : Z) :
  0 <= n -> n / 24 <= MAXDELTADAYS ->
  new_timedelta 0 n =
  Return (mk_timedelta (n * 3600 / 86400) (n * 3600 mod 86400) 0)
  /\ n * 3600 / 86400 = n / 24
  /\ 0 <= n * 3600 mod 86400 < 86400.
Proof.
  intros Hn Hd.
  assert (E : n * 3600 / 86400 = n / 24).
  { change 86400 with (24 * 3600).
    apply Z.div_mul_cancel_r; lia. }
  unfold new_timedelta. cbv zeta. rewrite Z.add_0_l, E.
  pose proof (Z.div_pos n 24 Hn ltac:(lia)) as P.
  assert (L : (Z.abs (n / 24) <=? MAXDELTADAYS) = true)
    by (apply Z.leb_le; lia).
  rewrite L. repeat split; auto; apply Z.mod_pos_bound; lia.
Qed.

(** C3, at a failing input: with eleven nines for N the shortcut builds
    [timedelta(hours=N)], which overflows, and the [OverflowError] leaves
    the function: nothing is returned, whatever the reference time.  With
    eight nines the sum leaves year 9999 and the addition overflows.  The
    time-of-day path turns the [ValueError] of an impossible time into a
    failure value; the shortcut has no such guard. *)
Theorem C3_in_hours_overflow_raises (now : datetime) :
  _parse_natural_time "in 99999999999 hours" now = Raise OverflowError
  /\ _parse_natural_time "in 99999999 hours" (at_ymd_hm 2024 3 15 8 0)
     = Raise OverflowError
  /\ _parse_natural_time "at 25" now
     = Failed "Invalid time: hour must be in 0..23"
  /\ _parse_natural_time "8:75pm" now
     = Failed "Invalid time: minute must be in 0..59".
Proof.
  split; [|split; [|split]].
  - vm_compute. reflexivity.
  - vm_compute. reflexivity.
  - rewrite parse_main by (vm_compute; reflexivity).
    vm_compute. reflexivity.
  - rewrite parse_main by (vm_compute; reflexivity).
    vm_compute. reflexivity.
Qed.

(** C4, as amended: when the text holds an 'in N hours' phrase whose
    digits are at most 4300 and the reference time plus N hours is no
    later than the last instant of year 9999, the parser resolves to
    exactly the reference time plus N hours, N being the number of the
    leftmost phrase; the title is the text without the phrases of that
    form, trimmed of whitespace, and absent when nothing is left: what
    stands before the leftmost phrase is kept, the phrase goes, and so do
    the later phrases of the form.  No other pattern of the text is
    looked at. *)
Theorem C4_in_hours_exact (text : string) (now : datetime) (m : Match)
    (digits : list ascii) :
  valid now ->
  search in_hours_re (normalize text) = Some m ->
  group 1 m = Some digits ->
  (List.length digits <= Str.MAX_STR_DIGITS)%nat ->
  instant now + Str.int_value digits * 3600000000
    < (MAXORDINAL + 1) * 86400000000 ->
  (exists w,
     _parse_natural_time text now =
       Resolved w (or_none (Str.strip (sub in_hours_strip_re (normalize text))))
     /\ instant w = instant now + Str.int_value digits * 3600000000
     /\ valid w)
  /\ sub in_hours_strip_re (normalize text) =
     firstn (m_start m) (normalize text)
     ++ sub in_hours_strip_re
          (skipn (m_start m + m_length m) (normalize text)).
Proof.
  intros V S G L B.
  split; [|apply in_hours_first_removed; exact S].
  destruct (in_hours_capture _ _ S) as (digits' & G' & D & _).
  rewrite G in G'. injection G' as <-.
  pose proof (int_value_nonneg digits D) as N.
  set (n := Str.int_value digits) in *.
  assert (I : 24 * 3600000000 <= instant now).
  { destruct V as (Vo & Vh & Vm & Vs & Vu). unfold instant. lia. }
  assert (Hd : n / 24 <= MAXDELTADAYS).
  { apply Z.lt_succ_r. apply Z.div_lt_upper_bound; [lia|].
    unfold MAXDELTADAYS, MAXORDINAL in *. lia. }
  destruct (new_timedelta_hours n N Hd) as (TD & Q & R).
  rewrite (parse_shortcut text now m S), G. unfold int_of, Str.int.
  apply Nat.leb_le in L. rewrite L. fold n. cbn [bind]. rewrite TD.
  cbn [bind].
  set (delta := mk_timedelta (n * 3600 / 86400) (n * 3600 mod 86400) 0).
  destruct (add now delta) as [w|e] eqn:A.
  - destruct (add_instant now w delta V) as (Iw & Vw); auto.
    { simpl. lia. }
    exists w. cbn [bind]. split; [reflexivity|]. split; [|exact Vw].
    rewrite Iw. unfold delta. simpl.
    pose proof (Z.div_mod (n * 3600) 86400 ltac:(lia)). lia.
  - exfalso. unfold add in A. cbv zeta in A.
    destruct ((0 <? _) && (_ <=? MAXORDINAL)) eqn:C; [discriminate|].
    apply andb_false_iff in C.
    destruct V as (Vo & Vh & Vm & Vs & Vu).
    unfold delta in C. simpl in C. rewrite Q in C.
    rewrite Z.add_0_r in C. rewrite (Z.div_small (microsecond now)) in C by lia.
    rewrite Z.add_0_r in C.
    set (s := hour now * 3600 + minute now * 60 + second now
              + n * 3600 mod 86400) in *.
    pose proof (Z.div_pos s 86400 ltac:(subst s; lia) ltac:(lia)) as Ps.
    pose proof (Z.div_pos n 24 N ltac:(lia)) as Pn.
    destruct C as [C|C]; [apply Z.ltb_ge in C; lia|apply Z.leb_gt in C].
    pose proof (Z.div_mod s 86400 ltac:(lia)) as Es.
    pose proof (Z.mod_pos_bound s 86400 ltac:(lia)) as Bs.
    pose proof (Z.div_mod (n * 3600) 86400 ltac:(lia)) as En.
    rewrite Q in En. unfold instant, MAXORDINAL in *. subst s. lia.
Qed.

Lemma C4_in_hours_exact_witness :
  (exists w,
     _parse_natural_time "in 2 hours lunch" (at_ymd_hm 2024 3 17 23 30) =
       Resolved w (or_none (Str.strip (sub in_hours_strip_re
                                           (normalize "in 2 hours lunch"))))
     /\ instant w = instant (at_ymd_hm 2024 3 17 23 30)
                    + Str.int_value (Str.chars "2") * 3600000000
     /\ valid w)
  /\ sub in_hours_strip_re (normalize "in 2 hours lunch") =
     firstn 0 (normalize "in 2 hours lunch")
     ++ sub in_hours_strip_re (skipn (0 + 10) (normalize "in 2 hours lunch")).
Proof.
  apply (C4_in_hours_exact "in 2 hours lunch" (at_ymd_hm 2024 3 17 23 30)
           (mk_match 0 10 [(1%nat, Str.chars "2")]) (Str.chars "2")).
  - vm_compute. repeat split; discriminate.
  - vm_compute. reflexivity.
  - reflexivity.
  - unfold Str.MAX_STR_DIGITS. simpl. lia.
  - vm_compute. reflexivity.
Defined.

(** C4, as stated, fails: for N of eleven nines the parser returns no
    time at all. *)
Lemma C4_counterexample :
  ~ (forall (text : string) (now : datetime) (m : Match)
            (digits : list ascii),
       valid now ->
       search in_hours_re (normalize text) = Some m ->
       group 1 m = Some digits ->
       exists w title,
         _parse_natural_time text now = Resolved w title /\
         instant w = instant now + Str.int_value digits * 3600000000).
Proof.
  intros H.
  destruct (H "in 99999999999 hours" (at_ymd_hm 2024 3 15 8 0)
              (mk_match 0 20 [(1%nat, Str.chars "99999999999")])
              (Str.chars "99999999999"))
    as (w & title & P & _).
  - vm_compute. repeat split; discriminate.
  - vm_compute. reflexivity.
  - reflexivity.
  - vm_compute in P. discriminate.
Qed.

(** ** No time in the text (claims C7 and C5) *)

Section NoTime.

Lemma no_time_found (text : string) (now : datetime) :
  search in_hours_re (normalize text) = None ->
  search at_time_re (normalize text) = None ->
  search colon_time_re (normalize text) = None ->
  search meridiem_time_re (normalize text) = None ->
  _parse_natural_time text now = Failed no_time_message.
Proof.
  intros H0 H1 H2 H3. rewrite (parse_main text now H0).
  unfold time_patterns, find_time. rewrite H1, H2, H3. reflexivity.
Qed.

(** C7: a text in which neither 'in N hours' nor any of the three
    time-of-day patterns matches anywhere makes the parser fail, with
    exactly the no-time-found message. *)
Theorem C7_no_pattern_no_time (text : string) (now : datetime) :
  ~ occurs in_hours_re (normalize text) ->
  ~ occurs at_time_re (normalize text) ->
  ~ occurs colon_time_re (normalize text) ->
  ~ occurs meridiem_time_re (normalize text) ->
  _parse_natural_time text now =
  Failed "Couldn't find a time. Try: 'tomorrow at 2pm' or 'monday 3:30pm'".
Proof.
  intros H0 H1 H2 H3.
  apply no_time_found; apply not_occurs_search; assumption.
Qed.

(** Lower-cased texts *)

Lemma lower_char_idem (c : ascii) :
  Str.lower_char (Str.lower_char c) = Str.lower_char c.
Proof.
  destruct c as [[|] [|] [|] [|] [|] [|] [|] [|]]; vm_compute; reflexivity.
Qed.

Lemma lower_lowered (s : list ascii) : lowered (Str.lower s).
Proof.
  unfold lowered, Str.lower. apply Forall_map.
  apply Forall_forall. intros c _. apply lower_char_idem.
Qed.

Lemma lowered_fixed (s : list ascii) : lowered s -> Str.lower s = s.
Proof.
  unfold lowered, Str.lower. induction 1 as [|c s Hc _ IH]; simpl; congruence.
Qed.

Lemma sub_from_Forall (P : ascii -> Prop) (r : regex) (s : list ascii) :
  forall skip, Forall P s -> Forall P (sub_from r skip s).
Proof.
  induction s as [|c s IH]; intros skip H; simpl; [constructor|].
  inversion H as [|? ? Hc Hs]; subst.
  destruct skip as [|n]; [|apply IH; exact Hs].
  destruct (match_here r (c :: s)) as [[[|n] g]|]; auto.
Qed.

Lemma strip_by_Forall (P : ascii -> Prop) (p : ascii -> bool) (s : list ascii) :
  Forall P s -> Forall P (Str.strip_by p s).
Proof.
  intros H. destruct (strip_by_infix p s) as (pre & post & E).
  rewrite E in H. apply Forall_app in H as [_ H].
  apply Forall_app in H as [H _]. exact H.
Qed.

Lemma normalize_lowered (text : string) : lowered (normalize text).
Proof. apply strip_by_Forall. apply lower_lowered. Qed.

Lemma or_none_some (l : list ascii) (title : string) :
  or_none l = Some title -> Str.chars title = l.
Proof.
  destruct l as [|c l]; simpl; [discriminate|].
  intros E; injection E as <-.
  apply (list_ascii_of_string_of_list_ascii (c :: l)).
Qed.

(** A returned title is in lower case. *)
Lemma title_lowered (text : string) (now w : datetime) (title : string) :
  _parse_natural_time text now = Resolved w (Some title) ->
  lowered (Str.chars title).
Proof.
  intros P. pose proof (normalize_lowered text) as L.
  destruct (search in_hours_re (normalize text)) as [m|] eqn:S.
  - destruct (shortcut_resolved text now m w _ S P) as (h & d & _ & _ & _ & T).
    symmetry in T. apply or_none_some in T. rewrite T.
    apply strip_by_Forall. apply sub_from_Forall. exact L.
  - destruct (main_resolved text now w _ S P)
      as (hh & mm & pp & d & tm & _ & _ & _ & _ & T).
    symmetry in T. apply or_none_some in T. rewrite T.
    unfold extract_title. apply strip_by_Forall.
    repeat apply sub_from_Forall. exact L.
Qed.

Lemma not_occurs_strip (r : regex) (p : ascii -> bool) (s : list ascii) :
  ~ occurs r s -> ~ occurs r (Str.strip_by p s).
Proof.
  intros H O. apply H. destruct (strip_by_infix p s) as (pre & post & E).
  rewrite E. apply occurs_infix. exact O.
Qed.

(** C5, as amended: when the returned title holds no 'in N hours' phrase
    and no match of the three time-of-day patterns, parsing the title
    fails with the no-time-found message.  (Such a title is not
    guaranteed: the shortcut leaves every other time phrase in it.) *)
Theorem C5_title_without_time_fails (text : string) (now now' w : datetime)
    (title : string) :
  _parse_natural_time text now = Resolved w (Some title) ->
  ~ occurs in_hours_re (Str.chars title) ->
  ~ occurs at_time_re (Str.chars title) ->
  ~ occurs colon_time_re (Str.chars title) ->
  ~ occurs meridiem_time_re (Str.chars title) ->
  _parse_natural_time title now' =
  Failed "Couldn't find a time. Try: 'tomorrow at 2pm' or 'monday 3:30pm'".
Proof.
  intros P H0 H1 H2 H3.
  assert (N : normalize title = Str.strip (Str.chars title)).
  { unfold normalize. rewrite lowered_fixed; [reflexivity|].
    eapply title_lowered; eauto. }
  apply no_time_found; rewrite N; apply not_occurs_search;
    apply not_occurs_strip; assumption.
Qed.

End NoTime.

Lemma C7_no_pattern_no_time_witness :
  _parse_natural_time "Lunch with Sam" (at_ymd_hm 2024 3 15 8 0) =
  Failed "Couldn't find a time. Try: 'tomorrow at 2pm' or 'monday 3:30pm'".
Proof.
  apply (C7_no_pattern_no_time "Lunch with Sam" (at_ymd_hm 2024 3 15 8 0));
    apply search_none_iff; vm_compute; reflexivity.
Defined.

Lemma C5_title_without_time_fails_witness :
  _parse_natural_time "doctor" (at_ymd_hm 2024 3 20 9 0) =
  Failed "Couldn't find a time. Try: 'tomorrow at 2pm' or 'monday 3:30pm'".
Proof.
  apply (C5_title_without_time_fails "Friday 10am Doctor"
           (at_ymd_hm 2024 3 15 8 0) (at_ymd_hm 2024 3 20 9 0)
           (at_ymd_hm 2024 3 15 10 0) "doctor").
  - vm_compute. reflexivity.
  - apply search_none_iff; vm_compute; reflexivity.
  - apply search_none_iff; vm_compute; reflexivity.
  - apply search_none_iff; vm_compute; reflexivity.
  - apply search_none_iff; vm_compute; reflexivity.
Defined.

(** C5, as stated, fails: "in 2 hours at 5pm lunch" resolves through the
    shortcut with the title "at 5pm lunch", and that title parses again,
    to 17:00. *)
Lemma C5_counterexample :
  ~ (forall (text : string) (now now' w : datetime) (title : string),
       _parse_natural_time text now = Resolved w (Some title) ->
       _parse_natural_time title now' =
       Failed "Couldn't find a time. Try: 'tomorrow at 2pm' or 'monday 3:30pm'").
Proof.
  intros H.
  specialize (H "in 2 hours at 5pm lunch" (at_ymd_hm 2024 3 15 8 0)
                (at_ymd_hm 2024 3 15 8 0) (at_ymd_hm 2024 3 15 10 0)
                "at 5pm lunch" ltac:(vm_compute; reflexivity)).
  vm_compute in H. discriminate.
Qed.

(** ** The resolved time (claim C8) *)

Section ResolvedTime.

Variable text : string.
Variable now : datetime.

Lemma int_of_some (digits : list ascii) (n : Z) :
  int_of (Some digits) = Return n -> n = Str.int_value digits.
Proof.
  unfold int_of, Str.int.
  destruct (Nat.leb _ _); [|discriminate]. intros E; injection E as <-.
  reflexivity.
Qed.

Lemma new_timedelta_fields (d h : Z) (delta : timedelta) :
  new_timedelta d h = Return delta ->
  days delta = d + h * 3600 / 86400 /\
  0 <= seconds delta < 86400 /\ microseconds delta = 0.
Proof.
  unfold new_timedelta. cbv zeta.
  destruct (_ <=? MAXDELTADAYS); [|discriminate].
  intros E; injection E as <-. simpl.
  pose proof (Z.mod_pos_bound (h * 3600) 86400 ltac:(lia)). auto.
Qed.

(** The shortcut never goes back in time. *)
Lemma shortcut_forward (m : Match) w title :
  valid now ->
  search in_hours_re (normalize text) = Some m ->
  _parse_natural_time text now = Resolved w title ->
  valid w /\ instant now <= instant w.
Proof.
  intros V S P.
  destruct (shortcut_resolved text now m w title S P)
    as (n & delta & I & D & A & _).
  destruct (in_hours_capture _ _ S) as (digits & G & Dg & _).
  rewrite G in I. apply int_of_some in I.
  pose proof (int_value_nonneg digits Dg) as N. rewrite <- I in N.
  apply new_timedelta_fields in D as (Dd & Ds & Du).
  destruct (add_instant now w delta V Ds ltac:(lia) A) as (Iw & Vw).
  split; [exact Vw|].
  pose proof (Z.div_pos (n * 3600) 86400 ltac:(lia) ltac:(lia)).
  rewrite Iw. lia.
Qed.

Lemma instant_le_date (a b : datetime) :
  valid a -> valid b -> instant a <= instant b -> date a <= date b.
Proof.
  intros (_ & Ah & Am & As & Au) (_ & Bh & Bm & Bs & Bu).
  unfold instant, date. lia.
Qed.

(** C8: a resolved time has its hour in 0..23 and its minute in 0..59,
    and its date is the reference date or a later one.  This holds on the
    time-of-day path and, N being non-negative, on the shortcut as well. *)
Theorem C8_resolved_time_in_range (w : datetime) (title : option string) :
  valid now ->
  _parse_natural_time text now = Resolved w title ->
  0 <= hour w <= 23 /\ 0 <= minute w <= 59 /\ date now <= date w.
Proof.
  intros V P.
  destruct (search in_hours_re (normalize text)) as [m|] eqn:S.
  - destruct (shortcut_forward m w title V S P) as (Vw & I).
    pose proof (instant_le_date now w V Vw I).
    destruct Vw as (_ & Wh & Wm & _). auto.
  - destruct (main_resolved text now w title S P)
      as (hh & mm & pp & d & tm & _ & D & T & -> & _).
    apply time_replace_range in T as (-> & Hh & Hm).
    apply (target_date_range _ _ _ V) in D.
    unfold combine, date. simpl. unfold date in D. lia.
Qed.

End ResolvedTime.

Lemma C8_resolved_time_in_range_witness :
  0 <= hour (at_ymd_hm 2024 3 18 15 30) <= 23 /\
  0 <= minute (at_ymd_hm 2024 3 18 15 30) <= 59 /\
  date (at_ymd_hm 2024 3 13 9 0) <= date (at_ymd_hm 2024 3 18 15 30).
Proof.
  apply (C8_resolved_time_in_range "monday 3:30pm meeting"
           (at_ymd_hm 2024 3 13 9 0) (at_ymd_hm 2024 3 18 15 30)
           (Some "meeting"%string)).
  - vm_compute. repeat split; discriminate.
  - vm_compute. reflexivity.
Defined.

(** ** Titles (claim C9) *)

Section Titles.

Variable text : string.
Variable now : datetime.



End Titles.

(** The time-of-day path in turn trims spaces only, not the other
    whitespace: a tab next to a removed phrase stays at the end of the
    title. *)
Lemma main_title_keeps_tab :
  _parse_natural_time (String "x" (String "009" "tomorrow 3pm"))
                      (at_ymd_hm 2024 3 15 8 0)
  = Resolved (at_ymd_hm 2024 3 16 15 0) (Some (String "x" (String "009" ""))).
Proof. vm_compute. reflexivity. Qed.

(** C9, at a failing input: the shortcut trims whitespace only, so the
    title of "in 2 hours, lunch" keeps its leading comma, while the
    time-of-day path trims the comma of "tomorrow 2pm, lunch". *)
Theorem C9_shortcut_title_keeps_comma :
  _parse_natural_time "in 2 hours, lunch" (at_ymd_hm 2024 3 15 8 0)
  = Resolved (at_ymd_hm 2024 3 15 10 0) (Some ", lunch"%string)
  /\ ~ trimmed (Str.one_of " ,-:") (Str.chars ", lunch")
  /\ _parse_natural_time "tomorrow 2pm, lunch" (at_ymd_hm 2024 3 15 8 0)
     = Resolved (at_ymd_hm 2024 3 16 14 0) (Some "lunch"%string).
Proof.
  split; [vm_compute; reflexivity|]. split; [|vm_compute; reflexivity].
  intros (H & _). specialize (H _ _ eq_refl). vm_compute in H. discriminate.
Qed.

(** ** Hour tokens without meridiem (claims C6 and C10) *)

Section BareHours.

Variable now : datetime.

Lemma below_100 (P : Z -> Prop) :
  (forall n : nat, (n < 100)%nat -> P (Z.of_nat n)) ->
  forall h, 0 <= h <= 99 -> P h.
Proof.
  intros H h R. rewrite <- (Z2Nat.id h) by lia. apply H. lia.
Qed.

(** C6, as amended: an hour token of one or two digits with no meridiem
    and no colon is a time only after the word 'at': "at 15" resolves to
    15:00 and "at 3" to 03:00 of the reference date, the hour unchanged;
    the token alone, "15" or "3", fails with the no-time-found message. *)
Theorem C6_bare_hour_needs_at (h : Z) :
  0 <= h <= 99 ->
  _parse_natural_time (hour_token h) now =
    Failed "Couldn't find a time. Try: 'tomorrow at 2pm' or 'monday 3:30pm'"
  /\ _parse_natural_time ("at " ++ hour_token h) now =
     if h <=? 23 then Resolved (mk_datetime (date now) h 0 0 0) None
     else Failed "Invalid time: hour must be in 0..23".
Proof.
  revert h. apply below_100. intros n Hn.
  do 100 (destruct n as [|n];
          [split; [vm_compute; reflexivity|];
           rewrite parse_main by (vm_compute; reflexivity);
           vm_compute; reflexivity|]).
  lia.
Qed.

Lemma target_date_tomorrow (t : list ascii) :
  valid now -> ordinal now < MAXORDINAL ->
  Str.str_in "tomorrow" t = true ->
  target_date t now = Return (date now + 1).
Proof.
  intros V M T. unfold target_date. rewrite T.
  rewrite (plus_days now 1 V) by lia.
  assert (E : (ordinal now + 1 <=? MAXORDINAL) = true) by (apply Z.leb_le; lia).
  rewrite E. reflexivity.
Qed.

(** C10: 'at' needs no word boundary.  In "chat 5 tomorrow" the letters
    'at' of "chat" and the number after them are read as the time 05:00,
    of the day after the reference date, and the title is what is left of
    the word; the same text without those two letters has no time. *)
Theorem C10_at_inside_a_word :
  valid now -> ordinal now < MAXORDINAL ->
  _parse_natural_time "chat 5 tomorrow" now =
    Resolved (mk_datetime (date now + 1) 5 0 0 0) (Some "ch"%string)
  /\ _parse_natural_time "ch 5 tomorrow" now =
     Failed "Couldn't find a time. Try: 'tomorrow at 2pm' or 'monday 3:30pm'".
Proof.
  intros V M. split; [|vm_compute; reflexivity].
  rewrite parse_main by (vm_compute; reflexivity).
  replace (find_time time_patterns (normalize "chat 5 tomorrow"))
    with (Return (A := option (Z * Z * option (list ascii)))
                 (Some (5, 0, None)))
    by (vm_compute; reflexivity).
  cbn [bind].
  rewrite (target_date_tomorrow _ V M) by (vm_compute; reflexivity).
  cbn [bind]. vm_compute. reflexivity.
Qed.

End BareHours.

Lemma C6_bare_hour_needs_at_witness :
  _parse_natural_time (hour_token 15) (at_ymd_hm 2024 3 15 8 0) =
    Failed "Couldn't find a time. Try: 'tomorrow at 2pm' or 'monday 3:30pm'"
  /\ _parse_natural_time ("at " ++ hour_token 15) (at_ymd_hm 2024 3 15 8 0) =
     if 15 <=? 23
     then Resolved (mk_datetime (date (at_ymd_hm 2024 3 15 8 0)) 15 0 0 0) None
     else Failed "Invalid time: hour must be in 0..23".
Proof.
  apply (C6_bare_hour_needs_at (at_ymd_hm 2024 3 15 8 0) 15). lia.
Defined.

Lemma C10_at_inside_a_word_witness :
  _parse_natural_time "chat 5 tomorrow" (at_ymd_hm 2024 3 15 8 0) =
    Resolved (mk_datetime (date (at_ymd_hm 2024 3 15 8 0) + 1) 5 0 0 0)
             (Some "ch"%string)
  /\ _parse_natural_time "ch 5 tomorrow" (at_ymd_hm 2024 3 15 8 0) =
     Failed "Couldn't find a time. Try: 'tomorrow at 2pm' or 'monday 3:30pm'".
Proof.
  apply (C10_at_inside_a_word (at_ymd_hm 2024 3 15 8 0)).
  - vm_compute. repeat split; discriminate.
  - vm_compute. reflexivity.
Defined.

(** C6, as stated, fails: the bare tokens "15" and "3" are rejected. *)
Lemma C6_counterexample :
  ~ (forall now : datetime,
       (exists w title, _parse_natural_time "15" now = Resolved w title
                        /\ hour w = 15 /\ minute w = 0) /\
       (exists w title, _parse_natural_time "3" now = Resolved w title
                        /\ hour w = 3 /\ minute w = 0)).
Proof.
  intros H.
  destruct (H (at_ymd_hm 2024 3 15 8 0)) as ((w & title & P & _) & _).
  vm_compute in P. discriminate.
Qed.

(** * Quick actions *)

(** ** Dictionaries and substrings *)

Section DictFacts.

Lemma flag_set (c : QA.Context) (k k' : string) (v : bool) :
  QA.flag (QA.set c k v) k' = if String.eqb k k' then v else QA.flag c k'.
Proof.
  unfold QA.flag. induction c as [|[k0 x] c IH]; simpl.
  - destruct (String.eqb k k'); reflexivity.
  - destruct (String.eqb k0 k) eqn:E; simpl.
    + apply String.eqb_eq in E. subst k0.
      destruct (String.eqb k k'); reflexivity.
    + destruct (String.eqb k0 k') eqn:E'.
      * apply String.eqb_eq in E'. subst k0. rewrite String.eqb_sym, E.
        reflexivity.
      * exact IH.
Qed.

Lemma keys_set (c : QA.Context) (k : string) (v : bool) :
  In k (map fst c) -> map fst (QA.set c k v) = map fst c.
Proof.
  induction c as [|[k0 x] c IH]; simpl; [contradiction|].
  intros [->|H].
  - rewrite String.eqb_refl. reflexivity.
  - destruct (String.eqb k0 k) eqn:E; simpl; [reflexivity|].
    rewrite IH; auto.
Qed.

Lemma startswith_iff (p s : list ascii) :
  Str.startswith p s = true <-> exists post, s = p ++ post.
Proof.
  revert s. induction p as [|a p IH]; intros s; simpl.
  - split; eauto.
  - destruct s as [|b s].
    + split; [discriminate|]. intros (post & E). discriminate.
    + unfold Str.ascii_eqb. split.
      * intros H. apply andb_prop in H as [H1 H2].
        apply Ascii.eqb_eq in H1 as ->. apply IH in H2 as (post & ->). eauto.
      * intros (post & E). injection E as -> ->.
        rewrite Ascii.eqb_refl. simpl. apply IH. eauto.
Qed.

Lemma contains_iff (needle hay : list ascii) :
  Str.contains needle hay = true <->
  exists pre post, hay = pre ++ needle ++ post.
Proof.
  induction hay as [|c hay IH]; simpl.
  - rewrite orb_false_r, startswith_iff. split.
    + intros (post & E). exists [], post. exact E.
    + intros (pre & post & E). destruct pre; simpl in E; [eauto|discriminate].
  - rewrite orb_true_iff, startswith_iff, IH. split.
    + intros [(post & E)|(pre & post & ->)].
      * exists [], post. exact E.
      * exists (c :: pre), post. reflexivity.
    + intros (pre & post & E). destruct pre as [|a pre]; simpl in E.
      * left. eauto.
      * injection E as -> ->. right. eauto.
Qed.

(** A text that holds a word holds every part of the word. *)
Lemma contains_trans (a b c : list ascii) :
  Str.contains a b = true -> Str.contains b c = true ->
  Str.contains a c = true.
Proof.
  rewrite !contains_iff. intros (p1 & q1 & ->) (p2 & q2 & ->).
  exists (p2 ++ p1), (q1 ++ q2). rewrite <- !app_assoc. reflexivity.
Qed.

End DictFacts.

(** ** The analysis of a session *)

Section SessionAnalysis.

Lemma test_words_redundant (content : list ascii) :
  QA.any_word_in ["test"; "pytest"; "unittest"] content
  = Str.str_in "test" content.
Proof.
  assert (HP : Str.str_in "pytest" content = true ->
               Str.str_in "test" content = true).
  { apply (contains_trans _ (Str.chars "pytest")). reflexivity. }
  assert (HU : Str.str_in "unittest" content = true ->
               Str.str_in "test" content = true).
  { apply (contains_trans _ (Str.chars "unittest")). reflexivity. }
  unfold QA.any_word_in. cbn [existsb].
  destruct (Str.str_in "test" content); [reflexivity|].
  destruct (Str.str_in "pytest" content); [discriminate (HP eq_refl)|].
  destruct (Str.str_in "unittest" content); [discriminate (HU eq_refl)|].
  reflexivity.
Qed.

Lemma fold_scan_flag (k : string) (ind : QA.Message -> bool) :
  (forall c m, QA.flag (QA.scan_message c m) k = QA.flag c k || ind m) ->
  forall msgs c,
    QA.flag (fold_left QA.scan_message msgs c) k
    = QA.flag c k || existsb ind msgs.
Proof.
  intros H msgs. induction msgs as [|m msgs IH]; intros c; simpl.
  - rewrite orb_false_r. reflexivity.
  - rewrite IH, H, orb_assoc. reflexivity.
Qed.

Ltac scan_flags :=
  intros c m; unfold QA.scan_message; fold (QA.content_of m);
  repeat match goal with
         | |- context [QA.any_word_in ?w ?x] => destruct (QA.any_word_in w x)
         end;
  rewrite ?flag_set; cbn [String.eqb Ascii.eqb Bool.eqb];
  rewrite ?orb_true_r, ?orb_false_r; reflexivity.

Lemma scan_has_code :
  forall c m, QA.flag (QA.scan_message c m) "has_code"
              = QA.flag c "has_code" || false.
Proof. scan_flags. Qed.

Lemma scan_has_tests :
  forall c m,
    QA.flag (QA.scan_message c m) "has_tests"
    = QA.flag c "has_tests"
      || QA.any_word_in ["test"; "pytest"; "unittest"] (QA.content_of m).
Proof. scan_flags. Qed.

Lemma scan_has_package_manager :
  forall c m,
    QA.flag (QA.scan_message c m) "has_package_manager"
    = QA.flag c "has_package_manager"
      || QA.any_word_in ["pip"; "poetry"; "npm"; "yarn"] (QA.content_of m).
Proof. scan_flags. Qed.

Lemma scan_has_dependencies :
  forall c m,
    QA.flag (QA.scan_message c m) "has_dependencies"
    = QA.flag c "has_dependencies"
      || QA.any_word_in ["pip"; "poetry"; "npm"; "yarn"] (QA.content_of m).
Proof. scan_flags. Qed.

Lemma scan_has_formatter :
  forall c m,
    QA.flag (QA.scan_message c m) "has_formatter"
    = QA.flag c "has_formatter"
      || QA.any_word_in ["black"; "prettier"; "format"] (QA.content_of m).
Proof. scan_flags. Qed.

Lemma scan_has_linter :
  forall c m,
    QA.flag (QA.scan_message c m) "has_linter"
    = QA.flag c "has_linter"
      || QA.any_word_in ["flake8"; "pylint"; "eslint"; "mypy"]
                        (QA.content_of m).
Proof. scan_flags. Qed.

Lemma analyze_context_fold (session : QA.Session) :
  QA._analyze_context session
  = fold_left QA.scan_message (QA.messages_of session) QA.default_context.
Proof.
  unfold QA._analyze_context, QA.messages_of.
  destruct (QA.context session) as [c|]; reflexivity.
Qed.

End SessionAnalysis.

Section SessionFlags.

Variable session : QA.Session.

Lemma analyze_flag (k : string) (ind : QA.Message -> bool) :
  (forall c m, QA.flag (QA.scan_message c m) k = QA.flag c k || ind m) ->
  QA.flag (QA._analyze_context session) k
  = QA.flag QA.default_context k || existsb ind (QA.messages_of session).
Proof.
  intros H. rewrite analyze_context_fold. apply fold_scan_flag. exact H.
Qed.

Lemma keys_set_in (c : QA.Context) (k : string) (v : bool)
    (ks : list string) :
  map fst c = ks -> In k ks -> map fst (QA.set c k v) = ks.
Proof. intros <- I. apply keys_set. exact I. Qed.

Lemma scan_keys (c : QA.Context) (m : QA.Message) :
  map fst c = map fst QA.default_context ->
  map fst (QA.scan_message c m) = map fst QA.default_context.
Proof.
  intros K. unfold QA.scan_message.
  repeat match goal with
         | |- context [QA.any_word_in ?w ?x] => destruct (QA.any_word_in w x)
         end;
    repeat (apply keys_set_in; [|simpl; tauto]); exact K.
Qed.

(** X1: what the analysis of a session finds.  [has_code] is always
    set; each other flag is set exactly when some recent message holds,
    in any letter case, one of its words; for [has_tests] the word "test"
    alone decides ("pytest" and "unittest" hold it); [has_dependencies]
    always equals [has_package_manager]; and the context has its six keys,
    whatever the messages. *)
Theorem analyze_context_flags :
  QA.flag (QA._analyze_context session) "has_code" = true /\
  QA.flag (QA._analyze_context session) "has_tests"
    = QA.seen ["test"] session /\
  QA.flag (QA._analyze_context session) "has_package_manager"
    = QA.seen ["pip"; "poetry"; "npm"; "yarn"] session /\
  QA.flag (QA._analyze_context session) "has_dependencies"
    = QA.flag (QA._analyze_context session) "has_package_manager" /\
  QA.flag (QA._analyze_context session) "has_formatter"
    = QA.seen ["black"; "prettier"; "format"] session /\
  QA.flag (QA._analyze_context session) "has_linter"
    = QA.seen ["flake8"; "pylint"; "eslint"; "mypy"] session /\
  map fst (QA._analyze_context session)
    = ["has_code"; "has_tests"; "has_package_manager"; "has_formatter";
       "has_linter"; "has_dependencies"].
Proof.
  rewrite (analyze_flag _ _ scan_has_code).
  rewrite (analyze_flag _ _ scan_has_tests).
  rewrite (analyze_flag _ _ scan_has_package_manager).
  rewrite (analyze_flag _ _ scan_has_dependencies).
  rewrite (analyze_flag _ _ scan_has_formatter).
  rewrite (analyze_flag _ _ scan_has_linter).
  unfold QA.seen. cbn [QA.flag QA.get QA.default_context String.eqb Ascii.eqb
                       Bool.eqb orb].
  repeat split.
  - induction (QA.messages_of session) as [|m msgs IH]; cbn [existsb];
      [reflexivity|].
    rewrite IH, test_words_redundant. unfold QA.any_word_in. cbn [existsb].
    rewrite orb_false_r. reflexivity.
  - rewrite analyze_context_fold.
    assert (G : forall msgs c,
               map fst c = map fst QA.default_context ->
               map fst (fold_left QA.scan_message msgs c)
               = map fst QA.default_context).
    { induction msgs as [|m msgs IH]; intros c K; simpl; [exact K|].
      apply IH. apply scan_keys. exact K. }
    apply (G _ QA.default_context). reflexivity.
Qed.

End SessionFlags.

Section SessionMonotone.

Lemma scan_flag_any (k : string) :
  exists ind, forall c m,
    QA.flag (QA.scan_message c m) k = QA.flag c k || ind m.
Proof.
  destruct (string_dec k "has_tests") as [->|N1];
    [eexists; exact scan_has_tests|].
  destruct (string_dec k "has_package_manager") as [->|N2];
    [eexists; exact scan_has_package_manager|].
  destruct (string_dec k "has_dependencies") as [->|N3];
    [eexists; exact scan_has_dependencies|].
  destruct (string_dec k "has_formatter") as [->|N4];
    [eexists; exact scan_has_formatter|].
  destruct (string_dec k "has_linter") as [->|N5];
    [eexists; exact scan_has_linter|].
  exists (fun _ => false). intros c m.
  assert (E : forall k', k <> k' -> String.eqb k' k = false).
  { intros k' H. apply String.eqb_neq. congruence. }
  unfold QA.scan_message.
  repeat match goal with
         | |- context [QA.any_word_in ?w ?x] => destruct (QA.any_word_in w x)
         end;
    rewrite ?flag_set, ?(E _ N1), ?(E _ N2), ?(E _ N3), ?(E _ N4), ?(E _ N5);
    rewrite orb_false_r; reflexivity.
Qed.

(** X2: the analysis only ever sets flags: a session that holds all the
    messages of another one, in any order, has all its flags. *)
Theorem analyze_context_monotone (s1 s2 : QA.Session) (k : string) :
  incl (QA.messages_of s1) (QA.messages_of s2) ->
  QA.flag (QA._analyze_context s1) k = true ->
  QA.flag (QA._analyze_context s2) k = true.
Proof.
  intros I. destruct (scan_flag_any k) as (ind & H).
  rewrite (analyze_flag s1 k ind H), (analyze_flag s2 k ind H).
  rewrite !orb_true_iff, !existsb_exists.
  intros [D|(m & Hm & Hi)]; [auto|]. right. exists m. auto.
Qed.

End SessionMonotone.

Lemma analyze_context_monotone_witness :
  QA.flag (QA._analyze_context
             (QA.mk_session
                (Some (QA.mk_session_context
                         (Some [Some "see docs"; Some "Run PyTest first"])))))
          "has_tests" = true.
Proof.
  apply (analyze_context_monotone
           (QA.mk_session
              (Some (QA.mk_session_context (Some [Some "Run PyTest first"]))))).
  - simpl. intros m [<-|[]]. simpl. auto.
  - vm_compute. reflexivity.
Defined.

(** ** Sorting by priority *)

Section SortFacts.

Lemma insert_perm (x : QA.QuickAction) (l : list QA.QuickAction) :
  Permutation (QA.insert_by_priority x l) (x :: l).
Proof.
  induction l as [|y l IH]; simpl; [reflexivity|].
  destruct (QA.priority x <? QA.priority y); [|reflexivity].
  rewrite IH. apply perm_swap.
Qed.

Lemma sort_perm (l : list QA.QuickAction) :
  Permutation (QA.sort_by_priority l) l.
Proof.
  induction l as [|x l IH]; simpl; [reflexivity|].
  rewrite insert_perm, IH. reflexivity.
Qed.

Lemma insert_sorted (x : QA.QuickAction) (l : list QA.QuickAction) :
  StronglySorted QA.outranks l ->
  StronglySorted QA.outranks (QA.insert_by_priority x l).
Proof.
  induction 1 as [|y l S IH F]; simpl.
  - constructor; constructor.
  - destruct (QA.priority x <? QA.priority y) eqn:E.
    + apply Z.ltb_lt in E. constructor; [exact IH|].
      apply Forall_forall. intros z Hz.
      apply (Permutation_in _ (insert_perm x l)) in Hz.
      destruct Hz as [<-|Hz]; [unfold QA.outranks; lia|].
      rewrite Forall_forall in F. auto.
    + apply Z.ltb_ge in E. constructor; [constructor; assumption|].
      constructor; [unfold QA.outranks; lia|].
      rewrite Forall_forall in *. intros z Hz. specialize (F z Hz).
      unfold QA.outranks in *. lia.
Qed.

Lemma sort_sorted (l : list QA.QuickAction) :
  StronglySorted QA.outranks (QA.sort_by_priority l).
Proof.
  induction l as [|x l IH]; simpl; [constructor|].
  apply insert_sorted. exact IH.
Qed.

Lemma insert_head (x : QA.QuickAction) (l : list QA.QuickAction) :
  Forall (QA.outranks x) l -> QA.insert_by_priority x l = x :: l.
Proof.
  destruct l as [|y l]; simpl; [reflexivity|].
  intros F. inversion F as [|? ? H _]; subst. unfold QA.outranks in H.
  assert (E : (QA.priority x <? QA.priority y) = false)
    by (apply Z.ltb_ge; lia).
  rewrite E. reflexivity.
Qed.

Lemma insert_filter (f : QA.QuickAction -> bool) (x : QA.QuickAction)
    (l : list QA.QuickAction) :
  StronglySorted QA.outranks l ->
  filter f (QA.insert_by_priority x l)
  = if f x then QA.insert_by_priority x (filter f l) else filter f l.
Proof.
  induction 1 as [|y l S IH F]; simpl.
  - destruct (f x); reflexivity.
  - destruct (QA.priority x <? QA.priority y) eqn:E; simpl.
    + rewrite IH. destruct (f y), (f x); simpl; rewrite ?E; reflexivity.
    + destruct (f x) eqn:Fx; simpl; rewrite ?Fx; [|reflexivity].
      apply Z.ltb_ge in E. symmetry.
      change (QA.insert_by_priority x (filter f (y :: l))
              = x :: filter f (y :: l)).
      apply insert_head. apply Forall_forall. intros z Hz.
      apply filter_In in Hz as [Hz _]. unfold QA.outranks.
      destruct Hz as [<-|Hz]; [lia|].
      rewrite Forall_forall in F. specialize (F z Hz).
      unfold QA.outranks in F. lia.
Qed.

(** Sorting and filtering commute: the sort keeps the order of the
    actions it does not have to move. *)
Lemma sort_filter (f : QA.QuickAction -> bool) (l : list QA.QuickAction) :
  QA.sort_by_priority (filter f l) = filter f (QA.sort_by_priority l).
Proof.
  induction l as [|x l IH]; simpl; [reflexivity|].
  rewrite insert_filter by apply sort_sorted.
  destruct (f x); simpl; rewrite IH; reflexivity.
Qed.

End SortFacts.

(** ** Suggestions *)

Section Suggestions.

Lemma slice_prefix {A : Type} (l : list A) (limit : Z) :
  exists rest, l = QA.slice_to l limit ++ rest.
Proof.
  unfold QA.slice_to. destruct (0 <=? limit);
    eexists; symmetry; apply firstn_skipn.
Qed.

Lemma slice_length {A : Type} (l : list A) (limit : Z) :
  Z.of_nat (List.length (QA.slice_to l limit)) =
  if 0 <=? limit then Z.min limit (Z.of_nat (List.length l))
  else Z.max 0 (Z.of_nat (List.length l) + limit).
Proof.
  unfold QA.slice_to. destruct (0 <=? limit) eqn:E;
    [apply Z.leb_le in E|apply Z.leb_gt in E]; rewrite length_firstn; lia.
Qed.

Lemma sorted_app_outranks (l1 l2 : list QA.QuickAction) :
  StronglySorted QA.outranks (l1 ++ l2) ->
  forall a b, In a l1 -> In b l2 -> QA.outranks a b.
Proof.
  induction l1 as [|x l1 IH]; simpl; intros S a b Ha Hb; [contradiction|].
  inversion S as [|? ? S' F]; subst. destruct Ha as [<-|Ha].
  - rewrite Forall_forall in F. apply F. apply in_or_app. auto.
  - eapply IH; eauto.
Qed.

Lemma sorted_prefix (l1 l2 : list QA.QuickAction) :
  StronglySorted QA.outranks (l1 ++ l2) -> StronglySorted QA.outranks l1.
Proof.
  induction l1 as [|x l1 IH]; simpl; intros S; [constructor|].
  inversion S as [|? ? S' F]; subst. constructor; [auto|].
  apply Forall_app in F as [F _]. exact F.
Qed.

Variable self : QA.QuickActionManager.
Variable fs : string -> QA.dir_state.
Variable session : option QA.Session.
Variable limit : Z.
Variable session_data : option (QA.dict string).

Lemma suggestions_unfold (c : QA.Context) :
  QA.context_for fs session session_data = Some c ->
  QA.get_suggestions self fs session limit session_data
  = QA.slice_to (QA.sort_by_priority (QA.available self c)) limit.
Proof. intros H. unfold QA.get_suggestions. rewrite H. reflexivity. Qed.

Lemma suggestions_split (c : QA.Context) :
  QA.context_for fs session session_data = Some c ->
  exists rest,
    QA.sort_by_priority (QA.available self c)
    = QA.get_suggestions self fs session limit session_data ++ rest.
Proof.
  intros H. rewrite (suggestions_unfold c H). apply slice_prefix.
Qed.

(** A suggestion is one of the available actions of the context that the
    call analysed. *)
Lemma suggestions_in_available (a : QA.QuickAction) :
  In a (QA.get_suggestions self fs session limit session_data) ->
  exists c, QA.context_for fs session session_data = Some c /\
            In a (QA.available self c).
Proof.
  intros H. unfold QA.get_suggestions in H.
  destruct (QA.context_for fs session session_data) as [c|] eqn:C;
    [|contradiction].
  destruct (slice_prefix (QA.sort_by_priority (QA.available self c)) limit)
    as (rest & E).
  exists c. split; [reflexivity|].
  apply (Permutation_in _ (sort_perm _)). rewrite E.
  apply in_or_app. left. exact H.
Qed.

(** X3: every suggestion is an action of the manager's table whose
    required context keys all hold in the analysed context. *)
Theorem suggestions_are_available (a : QA.QuickAction) :
  In a (QA.get_suggestions self fs session limit session_data) ->
  In a (QA.values (QA.actions self)) /\
  exists c, QA.context_for fs session session_data = Some c /\
            QA._is_action_available a c = true /\
            forall key, In key (QA.context_required a) ->
                        QA.get c key = Some true.
Proof.
  intros H. apply suggestions_in_available in H as (c & C & I).
  apply filter_In in I as [I V]. split; [exact I|].
  exists c. repeat split; auto.
  unfold QA._is_action_available in V.
  induction (QA.context_required a) as [|k ks IH]; intros key [];
    simpl in V; unfold QA.flag in V at 1;
    destruct (QA.get c k) as [[|]|] eqn:G; simpl in V; try discriminate;
    subst; auto.
Qed.

(** X4: the suggestions come in order of priority, highest first, and
    they are the best ones: an available action that is left out ranks
    no higher than any suggestion.  This holds for every [limit], negative
    ones included. *)
Theorem suggestions_are_the_top_ranked :
  StronglySorted QA.outranks
    (QA.get_suggestions self fs session limit session_data) /\
  forall c a b,
    QA.context_for fs session session_data = Some c ->
    In a (QA.get_suggestions self fs session limit session_data) ->
    In b (QA.available self c) ->
    ~ In b (QA.get_suggestions self fs session limit session_data) ->
    QA.priority b <= QA.priority a.
Proof.
  split.
  - unfold QA.get_suggestions.
    destruct (QA.context_for fs session session_data) as [c|]; [|constructor].
    destruct (slice_prefix (QA.sort_by_priority (QA.available self c)) limit)
      as (rest & E).
    apply (sorted_prefix _ rest). unfold QA.suggestions_for.
    fold (QA.available self c). rewrite <- E. apply sort_sorted.
  - intros c a b C Ha Hb N.
    destruct (suggestions_split c C) as (rest & E).
    pose proof (sort_sorted (QA.available self c)) as S. rewrite E in S.
    apply (sorted_app_outranks _ _ S a b Ha).
    apply (Permutation_in _ (Permutation_sym (sort_perm _))) in Hb.
    rewrite E in Hb. apply in_app_or in Hb as [Hb|Hb]; [contradiction|exact Hb].
Qed.

(** X5: how many suggestions come back: [limit] of them, or all the
    available actions when there are fewer; a negative [limit] instead
    drops that many from the end of the ranking. *)
Theorem suggestions_count (c : QA.Context) :
  QA.context_for fs session session_data = Some c ->
  Z.of_nat (List.length
              (QA.get_suggestions self fs session limit session_data)) =
  if 0 <=? limit
  then Z.min limit (Z.of_nat (List.length (QA.available self c)))
  else Z.max 0 (Z.of_nat (List.length (QA.available self c)) + limit).
Proof.
  intros C. rewrite (suggestions_unfold c C), slice_length.
  rewrite (Permutation_length (sort_perm _)). reflexivity.
Qed.

End Suggestions.

(** ** The default manager and the analysed contexts *)

Section DefaultManager.

(** An action looks at a context only through the truth of its keys. *)
Lemma available_ext (a : QA.QuickAction) (c1 c2 : QA.Context) :
  (forall k, QA.flag c1 k = QA.flag c2 k) ->
  QA._is_action_available a c1 = QA._is_action_available a c2.
Proof.
  intros H. unfold QA._is_action_available.
  induction (QA.context_required a) as [|k ks IH]; simpl; [reflexivity|].
  rewrite H, IH. reflexivity.
Qed.

Lemma default_context_flags (k : string) :
  QA.flag QA.default_context k = QA.flag [("has_code", true)] k.
Proof.
  unfold QA.flag, QA.default_context. cbn [QA.get].
  repeat match goal with
         | |- context [String.eqb ?a k] => destruct (String.eqb a k)
         end; reflexivity.
Qed.

(** The flags of a directory analysis. *)
Lemma data_analysis_flags (fs : string -> QA.dir_state)
    (d : QA.dict string) (c : QA.Context) :
  QA._analyze_context_from_data fs d = Some c ->
  QA.flag c "has_code" = true /\
  QA.flag c "has_dependencies" = QA.flag c "has_package_manager" /\
  QA.flag c "has_formatter" = QA.flag c "has_linter".
Proof.
  unfold QA._analyze_context_from_data.
  destruct (QA.get d "working_directory") as [[|ch wd]|];
    try (intros E; injection E as <-; repeat split; reflexivity).
  destruct (fs (String ch wd)) as [| |files dirs];
    try discriminate;
    try (intros E; injection E as <-; repeat split; reflexivity).
  intros E; injection E as <-.
  repeat match goal with
         | |- context [if ?b then _ else _] => destruct b
         end;
    rewrite ?flag_set; cbn [String.eqb Ascii.eqb Bool.eqb];
    repeat split; reflexivity.
Qed.

(** The flags of a session analysis that every context shares. *)
Lemma session_analysis_basics (s : QA.Session) :
  QA.flag (QA._analyze_context s) "has_code" = true /\
  QA.flag (QA._analyze_context s) "has_dependencies"
  = QA.flag (QA._analyze_context s) "has_package_manager".
Proof.
  rewrite (analyze_flag s _ _ scan_has_code).
  rewrite (analyze_flag s _ _ scan_has_dependencies).
  rewrite (analyze_flag s _ _ scan_has_package_manager).
  split; reflexivity.
Qed.

(** The three ways in which a call comes to its context. *)
Lemma context_for_cases (fs : string -> QA.dir_state)
    (session : option QA.Session) (session_data : option (QA.dict string))
    (c : QA.Context) :
  QA.context_for fs session session_data = Some c ->
  (exists s, c = QA._analyze_context s) \/
  (exists d, QA._analyze_context_from_data fs d = Some c) \/
  c = [("has_code", true)].
Proof.
  unfold QA.context_for. destruct session as [s|].
  - intros E; injection E as <-. left. exists s. reflexivity.
  - destruct session_data as [[|e d]|];
      try (intros E; injection E as <-; right; right; reflexivity).
    intros E. right. left. exists (e :: d). exact E.
Qed.

(** The default manager's suggestions as a filter of its ranking. *)
Lemma default_suggestions_filter (fs : string -> QA.dir_state)
    (session : option QA.Session) (limit : Z)
    (session_data : option (QA.dict string)) (c : QA.Context) :
  QA.context_for fs session session_data = Some c ->
  QA.get_suggestions QA.new_manager fs session limit session_data =
    QA.slice_to
      (filter (fun a => QA._is_action_available a c)
              (QA.sort_by_priority (QA.values QA._create_default_actions)))
      limit.
Proof.
  intros C. rewrite (suggestions_unfold _ _ _ _ _ c C). unfold QA.available.
  rewrite sort_filter. reflexivity.
Qed.

(** X6: whichever way the context is analysed, from a session, from a
    working directory or not at all, [has_code] holds in it and
    [has_dependencies] holds exactly when [has_package_manager] does. *)
Theorem analysed_context_invariants (fs : string -> QA.dir_state)
    (session : option QA.Session) (session_data : option (QA.dict string))
    (c : QA.Context) :
  QA.context_for fs session session_data = Some c ->
  QA.flag c "has_code" = true /\
  QA.flag c "has_dependencies" = QA.flag c "has_package_manager".
Proof.
  intros C.
  apply context_for_cases in C as [(s & ->) | [(d & E) | ->]].
  - apply session_analysis_basics.
  - apply data_analysis_flags in E as (H1 & H2 & _). auto.
  - split; reflexivity.
Qed.

(** X7: the default manager ranks its actions test, install, lint,
    format, security, optimize, document, refactor, and its suggestions
    are the available ones among them, in this order, cut at [limit]. *)
Theorem default_suggestions_in_fixed_order (fs : string -> QA.dir_state)
    (session : option QA.Session) (limit : Z)
    (session_data : option (QA.dict string)) (c : QA.Context) :
  QA.context_for fs session session_data = Some c ->
  QA.get_suggestions QA.new_manager fs session limit session_data =
    QA.slice_to
      (filter (fun a => QA._is_action_available a c)
              (QA.sort_by_priority (QA.values QA._create_default_actions)))
      limit
  /\ map QA.id (QA.sort_by_priority (QA.values QA._create_default_actions))
     = ["test"; "install"; "lint"; "format"; "security"; "optimize";
        "document"; "refactor"].
Proof.
  intros C. split; [|reflexivity].
  apply default_suggestions_filter. exact C.
Qed.

(** X8: with room for all eight actions, the default manager always
    suggests optimize, document and refactor, and it suggests install
    exactly when it suggests security. *)
Theorem default_suggestions_always (fs : string -> QA.dir_state)
    (session : option QA.Session) (limit : Z)
    (session_data : option (QA.dict string)) (c : QA.Context) :
  QA.context_for fs session session_data = Some c ->
  8 <= limit ->
  let ids := map QA.id (QA.get_suggestions QA.new_manager fs session limit
                                           session_data) in
  In "optimize" ids /\ In "document" ids /\ In "refactor" ids /\
  (In "install" ids <-> In "security" ids).
Proof.
  intros C L.
  rewrite (default_suggestions_filter fs session limit session_data c C).
  assert (H : QA.flag c "has_code" = true /\
              QA.flag c "has_dependencies" = QA.flag c "has_package_manager").
  { apply context_for_cases in C as [(s & ->) | [(d & E) | ->]].
    - apply session_analysis_basics.
    - apply data_analysis_flags in E as (H1 & H2 & _). auto.
    - split; reflexivity. }
  destruct H as (H1 & H2). unfold QA.slice_to.
  assert (P : (0 <=? limit) = true) by (apply Z.leb_le; lia). rewrite P.
  rewrite firstn_all2.
  2:{ eapply Nat.le_trans; [apply filter_length_le|].
      change (List.length
                (QA.sort_by_priority (QA.values QA._create_default_actions)))
        with 8%nat.
      lia. }
  cbv [QA.sort_by_priority QA.values QA._create_default_actions map snd
       fold_right QA.insert_by_priority QA.priority Z.ltb Z.compare
       Pos.compare Pos.compare_cont].
  cbn [filter QA._is_action_available QA.context_required
       QA.required_keys_hold].
  rewrite H1, H2.
  destruct (QA.flag c "has_tests"), (QA.flag c "has_package_manager"),
    (QA.flag c "has_linter"), (QA.flag c "has_formatter");
    cbn; intuition (discriminate || auto).
Qed.

(** X9: a working directory that is not given, or is no directory,
    changes nothing: the suggestions are those of a call without any
    session data. *)
Theorem missing_directory_like_no_data (self : QA.QuickActionManager)
    (fs : string -> QA.dir_state) (limit : Z) (d : QA.dict string) :
  (forall wd, QA.get d "working_directory" = Some wd -> wd <> "" ->
              fs wd = QA.NotADirectory) ->
  QA.get_suggestions self fs None limit (Some d)
  = QA.get_suggestions self fs None limit None.
Proof.
  intros H. unfold QA.get_suggestions, QA.context_for.
  destruct d as [|e d]; [reflexivity|].
  assert (E : QA._analyze_context_from_data fs (e :: d)
              = Some QA.default_context).
  { unfold QA._analyze_context_from_data.
    destruct (QA.get (e :: d) "working_directory") as [[|ch wd]|] eqn:G;
      try reflexivity.
    rewrite (H _ eq_refl); [reflexivity|discriminate]. }
  rewrite E. unfold QA.suggestions_for. f_equal. f_equal.
  apply filter_ext. intros a. apply available_ext.
  apply default_context_flags.
Qed.

End DefaultManager.

(** X10: what the analysis of a working directory finds.  Tests are
    seen in a directory named tests or test, or in a file whose name holds
    "test"; a package manager, and with it dependencies, in one of three
    files; a linter, and with it a formatter, in one of three files.  So
    pyproject.toml alone sets four flags, and [has_formatter] always equals
    [has_linter]. *)
Theorem directory_analysis_flags (fs : string -> QA.dir_state)
    (d : QA.dict string) (wd : string) (files dirs : list string) :
  QA.get d "working_directory" = Some wd -> wd <> "" ->
  fs wd = QA.Listing files dirs ->
  exists c,
    QA._analyze_context_from_data fs d = Some c /\
    QA.flag c "has_code" = true /\
    QA.flag c "has_tests"
      = (QA.mem "tests" dirs || QA.mem "test" dirs
         || existsb (fun f => Str.str_in "test" (Str.chars f)) files) /\
    QA.flag c "has_package_manager"
      = (QA.mem "pyproject.toml" files || QA.mem "requirements.txt" files
         || QA.mem "package.json" files) /\
    QA.flag c "has_dependencies" = QA.flag c "has_package_manager" /\
    QA.flag c "has_linter"
      = (QA.mem "pyproject.toml" files || QA.mem ".flake8" files
         || QA.mem ".pylintrc" files) /\
    QA.flag c "has_formatter" = QA.flag c "has_linter".
Proof.
  intros G N F. unfold QA._analyze_context_from_data. rewrite G.
  destruct wd as [|ch wd]; [contradiction|]. rewrite F.
  eexists. split; [reflexivity|].
  destruct (QA.mem "tests" dirs), (QA.mem "test" dirs),
    (existsb (fun f => Str.str_in "test" (Str.chars f)) files),
    (QA.mem "pyproject.toml" files), (QA.mem "requirements.txt" files),
    (QA.mem "package.json" files), (QA.mem ".flake8" files),
    (QA.mem ".pylintrc" files);
    cbn [orb]; rewrite ?flag_set; cbn [String.eqb Ascii.eqb Bool.eqb];
    repeat split; reflexivity.
Qed.

(** ** The inline keyboard *)

Section Keyboard.

Lemma chunked_concat_nil {A : Type} (c : nat) (rows : list (list A)) :
  (1 <= c)%nat -> QA.chunked c rows -> List.concat rows = [] -> rows = [].
Proof.
  intros C H. destruct H as [|r Hr|r rows' Hr N Ch]; simpl; auto.
  - rewrite app_nil_r. intros ->. simpl in Hr. lia.
  - intros E. apply app_eq_nil in E as [-> E]. simpl in Hr. lia.
Qed.

Lemma chunked_one {A : Type} (rows : list (list A)) :
  QA.chunked 1 rows -> rows = map (fun x => [x]) (List.concat rows).
Proof.
  induction 1 as [|r H|r rows H N Ch IH]; simpl; auto.
  - destruct r as [|x [|y r]]; simpl in H; try lia. reflexivity.
  - destruct r as [|x [|y r]]; simpl in H; try lia. simpl. congruence.
Qed.

Variable columns : Z.

Let c : nat := Z.to_nat (Z.max 1 columns).

Lemma keyboard_loop_spec (n : Z) (acts : list QA.QuickAction) :
  forall i keyboard row,
    i + Z.of_nat (List.length acts) = n ->
    (List.length row < c)%nat ->
    (acts = [] -> row = []) ->
    exists tail,
      QA.keyboard_loop columns n i acts keyboard row = keyboard ++ tail /\
      List.concat tail = row ++ map QA.button acts /\
      QA.chunked c tail.
Proof.
  assert (C1 : (1 <= c)%nat) by (unfold c; lia).
  induction acts as [|a rest IH]; intros i keyboard row Hn Hrow Hnil.
  - rewrite (Hnil eq_refl). exists []. simpl. rewrite app_nil_r.
    repeat split. constructor.
  - simpl QA.keyboard_loop. cbv zeta.
    set (row' := row ++ [QA.button a]).
    assert (L : List.length row' = S (List.length row)).
    { unfold row'. rewrite length_app. simpl. lia. }
    simpl List.length in Hn.
    destruct ((columns <=? Z.of_nat (List.length row')) || (i =? n - 1))
      eqn:Cond.
    + destruct (IH (i + 1) (keyboard ++ [row']) []) as (tail & E & Cc & Ch);
        try lia; auto.
      exists (row' :: tail). rewrite E, <- app_assoc. split; [reflexivity|].
      split.
      { simpl. rewrite Cc. unfold row'. rewrite <- app_assoc. reflexivity. }
      destruct tail as [|r tail].
      * apply QA.chunked_last. lia.
      * apply QA.chunked_cons; [|discriminate|exact Ch].
        assert (R : rest <> []).
        { intros ->. simpl in Cc.
          apply (chunked_concat_nil _ _ C1 Ch) in Cc. discriminate. }
        apply orb_prop in Cond as [Cond|Cond].
        -- apply Z.leb_le in Cond. unfold c in *. lia.
        -- apply Z.eqb_eq in Cond. destruct rest; [contradiction|].
           simpl List.length in Hn. lia.
    + apply orb_false_elim in Cond as [C2 C3].
      apply Z.leb_gt in C2. apply Z.eqb_neq in C3.
      assert (R : rest <> []) by (intros ->; simpl in Hn; lia).
      destruct (IH (i + 1) keyboard row') as (tail & E & Cc & Ch);
        try lia.
      * intros ->. contradiction.
      * exists tail. split; [exact E|]. split; [|exact Ch].
        rewrite Cc. unfold row'. rewrite <- app_assoc. reflexivity.
Qed.

Lemma keyboard_spec (acts : list QA.QuickAction) :
  List.concat (QA.create_inline_keyboard acts columns) = map QA.button acts /\
  QA.chunked c (QA.create_inline_keyboard acts columns).
Proof.
  assert (C1 : (1 <= c)%nat) by (unfold c; lia).
  unfold QA.create_inline_keyboard.
  destruct (keyboard_loop_spec (Z.of_nat (List.length acts)) acts 0 [] [])
    as (tail & E & Cc & Ch); simpl; auto; try lia.
  rewrite E. simpl. auto.
Qed.

Lemma chunked_count {A : Type} (rows : list (list A)) :
  QA.chunked c rows ->
  Z.of_nat (List.length rows)
  = (Z.of_nat (List.length (List.concat rows)) + Z.of_nat c - 1) / Z.of_nat c.
Proof.
  assert (C1 : (1 <= c)%nat) by (unfold c; lia).
  induction 1 as [|r H|r rows H N Ch IH]; cbn [List.length List.concat].
  - rewrite Z.div_small by lia. reflexivity.
  - rewrite app_nil_r.
    apply (Z.div_unique _ _ 1 (Z.of_nat (List.length r) - 1)); lia.
  - rewrite length_app, H, Nat2Z.inj_succ, Nat2Z.inj_add, IH.
    replace (Z.of_nat c + Z.of_nat (List.length (List.concat rows))
             + Z.of_nat c - 1)
      with (Z.of_nat (List.length (List.concat rows)) + Z.of_nat c - 1
            + 1 * Z.of_nat c) by lia.
    rewrite Z.div_add by lia. lia.
Qed.

End Keyboard.

(** X11: the keyboard holds every action once, in the order given: its
    rows read one after the other are the buttons of the actions, each
    with the icon and name as text and "quick_action:" and the id as
    callback data. *)
Theorem keyboard_keeps_every_button (acts : list QA.QuickAction)
    (columns : Z) :
  List.concat (QA.create_inline_keyboard acts columns)
  = map (fun a => QA.mk_button (QA.icon a ++ " " ++ QA.name a)%string
                               ("quick_action:" ++ QA.id a)%string) acts.
Proof. apply keyboard_spec. Qed.

(** X12: the rows of the keyboard: with c the number of columns, or 1
    for a number below 1, every row but the last has exactly c buttons,
    the last has 1 to c, and no actions give no row; so there are
    (n + c - 1) / c rows for n actions. *)
Theorem keyboard_rows_are_full (acts : list QA.QuickAction) (columns : Z) :
  QA.chunked (Z.to_nat (Z.max 1 columns))
             (QA.create_inline_keyboard acts columns) /\
  Z.of_nat (List.length (QA.create_inline_keyboard acts columns))
  = (Z.of_nat (List.length acts) + Z.max 1 columns - 1) / Z.max 1 columns.
Proof.
  destruct (keyboard_spec columns acts) as (E & C).
  split; [exact C|].
  rewrite (chunked_count columns _ C), E, length_map, Z2Nat.id by lia.
  reflexivity.
Qed.

(** X13: a number of columns of 1, 0 or below puts every button in a row
    of its own. *)
Theorem keyboard_single_column (acts : list QA.QuickAction) (columns : Z) :
  columns <= 1 ->
  QA.create_inline_keyboard acts columns
  = map (fun a => [QA.button a]) acts.
Proof.
  intros H. destruct (keyboard_spec columns acts) as (E & C).
  replace (Z.to_nat (Z.max 1 columns)) with 1%nat in C by lia.
  rewrite (chunked_one _ C), E, map_map. reflexivity.
Qed.

Lemma keyboard_single_column_witness :
  QA.create_inline_keyboard (QA.values QA._create_default_actions) 0
  = map (fun a => [QA.button a]) (QA.values QA._create_default_actions).
Proof.
  apply (keyboard_single_column (QA.values QA._create_default_actions) 0).
  lia.
Defined.

(** ** Executing an action *)

Section Execute.

(** X14: the default manager executes exactly its eight ids, and the
    command it returns is the id itself; any other id, the empty one
    included, raises. *)
Theorem execute_default_action (action_id : string) :
  QA.execute_action QA.new_manager action_id =
  if QA.mem action_id ["test"; "install"; "format"; "lint"; "security";
                       "optimize"; "document"; "refactor"]
  then Return action_id else Raise ValueError.
Proof.
  unfold QA.execute_action, QA.new_manager, QA.actions,
    QA._create_default_actions, QA.mem.
  cbn [QA.get existsb].
  repeat match goal with
         | |- context [String.eqb ?a action_id] =>
             rewrite (String.eqb_sym a action_id);
             destruct (String.eqb action_id a) eqn:?
         end;
    cbn [orb QA.command];
    repeat match goal with
           | H : String.eqb _ _ = true |- _ => apply String.eqb_eq in H
           end;
    subst; reflexivity.
Qed.

Lemma get_keyed (table : QA.dict QA.QuickAction) (a : QA.QuickAction) :
  NoDup (map fst table) ->
  In (QA.id a, a) table ->
  QA.get table (QA.id a) = Some a.
Proof.
  induction table as [|[k x] table IH]; simpl; [contradiction|].
  intros N I. inversion N as [|? ? Nk N']; subst.
  destruct I as [E|I].
  - injection E as -> ->. rewrite String.eqb_refl. reflexivity.
  - destruct (String.eqb k (QA.id a)) eqn:E.
    + apply String.eqb_eq in E. subst k. exfalso. apply Nk.
      apply (in_map fst) in I. exact I.
    + auto.
Qed.

(** X15: in a manager whose table files each action under its own id,
    every suggestion can be executed: the id that its button carries is
    known to [execute_action], which returns the command of that very
    action. *)
Theorem suggestions_can_be_executed (self : QA.QuickActionManager)
    (fs : string -> QA.dir_state) (session : option QA.Session) (limit : Z)
    (session_data : option (QA.dict string)) (a : QA.QuickAction) :
  NoDup (map fst (QA.actions self)) ->
  Forall (fun entry => fst entry = QA.id (snd entry)) (QA.actions self) ->
  In a (QA.get_suggestions self fs session limit session_data) ->
  QA.callback_data (QA.button a) = ("quick_action:" ++ QA.id a)%string /\
  QA.execute_action self (QA.id a) = Return (QA.command a).
Proof.
  intros N K I. split; [reflexivity|].
  apply suggestions_in_available in I as (c & _ & I).
  apply filter_In in I as [I _].
  unfold QA.values in I. apply in_map_iff in I as ([k x] & E & I).
  simpl in E. subst x. rewrite Forall_forall in K.
  pose proof (K _ I) as Hk. simpl in Hk. subst k.
  unfold QA.execute_action. rewrite (get_keyed _ _ N I). reflexivity.
Qed.

End Execute.

(** * The /schedule command *)

Section ScheduleReplies.


Variable args : list string.
Variable now : datetime.



End ScheduleReplies.

(** ** The flag --family *)

Section FamilyFlag.












End FamilyFlag.


(** ** Instances *)

Lemma suggestions_are_available_witness :
  let a := QA.mk_action "refactor" "Refactor" "Suggest code improvements"
                        "refactor" "🔧" "quality" ["has_code"] 3 in
  In a (QA.values (QA.actions QA.new_manager)) /\
  exists c, QA.context_for (fun _ => QA.NotADirectory) None None = Some c /\
            QA._is_action_available a c = true /\
            forall key, In key (QA.context_required a) ->
                        QA.get c key = Some true.
Proof.
  intros a.
  apply (suggestions_are_available QA.new_manager (fun _ => QA.NotADirectory)
           None 6 None a).
  vm_compute. do 2 right. left. reflexivity.
Defined.

Lemma suggestions_count_witness :
  Z.of_nat (List.length
              (QA.get_suggestions QA.new_manager (fun _ => QA.NotADirectory)
                                  None 2 None)) =
  if 0 <=? 2
  then Z.min 2 (Z.of_nat (List.length
                            (QA.available QA.new_manager [("has_code", true)])))
  else Z.max 0 (Z.of_nat (List.length
                            (QA.available QA.new_manager [("has_code", true)]))
                + 2).
Proof.
  apply (suggestions_count QA.new_manager (fun _ => QA.NotADirectory) None 2
           None [("has_code", true)]).
  reflexivity.
Defined.

Lemma analysed_context_invariants_witness :
  QA.flag (QA._analyze_context
             (QA.mk_session
                (Some (QA.mk_session_context (Some [Some "pip install x"])))))
          "has_code" = true /\
  QA.flag (QA._analyze_context
             (QA.mk_session
                (Some (QA.mk_session_context (Some [Some "pip install x"])))))
          "has_dependencies"
  = QA.flag (QA._analyze_context
               (QA.mk_session
                  (Some (QA.mk_session_context (Some [Some "pip install x"])))))
            "has_package_manager".
Proof.
  apply (analysed_context_invariants (fun _ => QA.NotADirectory)
           (Some (QA.mk_session
                    (Some (QA.mk_session_context
                             (Some [Some "pip install x"])))))
           None).
  reflexivity.
Defined.

Lemma default_suggestions_in_fixed_order_witness :
  QA.get_suggestions QA.new_manager
    (fun _ => QA.Listing ["pyproject.toml"; "main.py"] ["tests"])
    None 6 (Some [("working_directory", "/repo")]) =
    QA.slice_to
      (filter (fun a => QA._is_action_available a
                          [("has_code", true); ("has_tests", true);
                           ("has_package_manager", true);
                           ("has_formatter", true); ("has_linter", true);
                           ("has_dependencies", true)])
              (QA.sort_by_priority (QA.values QA._create_default_actions)))
      6
  /\ map QA.id (QA.sort_by_priority (QA.values QA._create_default_actions))
     = ["test"; "install"; "lint"; "format"; "security"; "optimize";
        "document"; "refactor"].
Proof.
  apply (default_suggestions_in_fixed_order
           (fun _ => QA.Listing ["pyproject.toml"; "main.py"] ["tests"])
           None 6 (Some [("working_directory", "/repo")])).
  vm_compute. reflexivity.
Defined.

Lemma default_suggestions_always_witness :
  let ids := map QA.id (QA.get_suggestions QA.new_manager
                          (fun _ => QA.NotADirectory) None 8 None) in
  In "optimize" ids /\ In "document" ids /\ In "refactor" ids /\
  (In "install" ids <-> In "security" ids).
Proof.
  apply (default_suggestions_always (fun _ => QA.NotADirectory) None 8 None
           [("has_code", true)]).
  - reflexivity.
  - lia.
Defined.

Lemma missing_directory_like_no_data_witness :
  QA.get_suggestions QA.new_manager (fun _ => QA.NotADirectory) None 6
                     (Some [("working_directory", "/nowhere")])
  = QA.get_suggestions QA.new_manager (fun _ => QA.NotADirectory) None 6 None.
Proof.
  apply (missing_directory_like_no_data QA.new_manager
           (fun _ => QA.NotADirectory) 6 [("working_directory", "/nowhere")]).
  intros wd _ _. reflexivity.
Defined.

Lemma directory_analysis_flags_witness :
  exists c,
    QA._analyze_context_from_data
      (fun _ => QA.Listing ["pyproject.toml"; "main.py"] ["src"])
      [("working_directory", "/repo")] = Some c /\
    QA.flag c "has_code" = true /\
    QA.flag c "has_tests"
      = (QA.mem "tests" ["src"] || QA.mem "test" ["src"]
         || existsb (fun f => Str.str_in "test" (Str.chars f))
                    ["pyproject.toml"; "main.py"]) /\
    QA.flag c "has_package_manager"
      = (QA.mem "pyproject.toml" ["pyproject.toml"; "main.py"]
         || QA.mem "requirements.txt" ["pyproject.toml"; "main.py"]
         || QA.mem "package.json" ["pyproject.toml"; "main.py"]) /\
    QA.flag c "has_dependencies" = QA.flag c "has_package_manager" /\
    QA.flag c "has_linter"
      = (QA.mem "pyproject.toml" ["pyproject.toml"; "main.py"]
         || QA.mem ".flake8" ["pyproject.toml"; "main.py"]
         || QA.mem ".pylintrc" ["pyproject.toml"; "main.py"]) /\
    QA.flag c "has_formatter" = QA.flag c "has_linter".
Proof.
  apply (directory_analysis_flags
           (fun _ => QA.Listing ["pyproject.toml"; "main.py"] ["src"])
           [("working_directory", "/repo")] "/repo").
  - reflexivity.
  - discriminate.
  - reflexivity.
Defined.

Lemma suggestions_can_be_executed_witness :
  let a := QA.mk_action "refactor" "Refactor" "Suggest code improvements"
                        "refactor" "🔧" "quality" ["has_code"] 3 in
  QA.callback_data (QA.button a) = ("quick_action:" ++ QA.id a)%string /\
  QA.execute_action QA.new_manager (QA.id a) = Return (QA.command a).
Proof.
  intros a.
  apply (suggestions_can_be_executed QA.new_manager
           (fun _ => QA.NotADirectory) None 6 None a).
  - simpl. repeat constructor; simpl; intuition discriminate.
  - simpl. repeat constructor.
  - vm_compute. do 2 right. left. reflexivity.
Defined.



